(** * Zipline Discord integration: credential store, settings store,
      remote upload client and pagination session

    A shallow embedding of [src/index.js].

    - JavaScript strings are sequences of UTF-16 code units.
    - The module-level objects [userTokens] and [userSettings] are finite
      maps keyed by the user id (a Discord snowflake, so never the name of a
      member of [Object.prototype]); the files written by [saveTokens] and
      [saveSettings] hold a snapshot of the map they serialise, and the
      write itself is taken to succeed.
    - A function that reads the network, the clock or the host takes what
      it reads from a [World]; an exception is a [Throw] result.  A body
      that parses is a JSON object; [statsReply] alone also takes the body
      [null].
    - The calls on the chat platform are recorded in the order made and are
      taken to succeed; texts are named rather than spelled out.
    - The [while (true)] loop of the listing takes fuel.
    - The component collector of discord.js is a two-state machine fed with
      presses and with the running out of its timer.
    - Numbers shown with [toFixed] are quotients of a safe integer by a
      power of two, which are exact as doubles, so the digits are computed
      on integers.
    - [Dashboard] holds what the validating variant of the bot in
      [src/deploy-commands.js] adds: the token check and the dialogs. *)

From stdpp Require Import gmap list.
From Stdlib Require Import ZArith NArith String Ascii.

Open Scope N_scope.
Open Scope Z_scope.
Open Scope nat_scope.

(* ===================================================================== *)
(** * Part I. The embedding                                               *)
(* ===================================================================== *)

(** ** JavaScript strings *)

(** A string value is its sequence of UTF-16 code units. *)
Abbreviation jsstring := (list N).

(** A literal of the source, all of whose characters are ASCII. *)
Definition js (s : string) : jsstring :=
  List.map N_of_ascii (list_ascii_of_string s).

(** [ToBoolean] on a string: only the empty string is falsy. *)
Definition truthy (s : jsstring) : bool :=
  match s with
  | [] => false
  | _ :: _ => true
  end.

(** The code units [String.prototype.trim] strips: ECMAScript's WhiteSpace
    (TAB, VT, FF, ZWNBSP and the space separators) and LineTerminator
    (LF, CR, LS, PS). *)
Definition isWhiteSpace (c : N) : bool :=
  ((9 <=? c) && (c <=? 13) || (c =? 32) || (c =? 160) || (c =? 5760)
   || (8192 <=? c) && (c <=? 8202) || (c =? 8232) || (c =? 8233)
   || (c =? 8239) || (c =? 8287) || (c =? 12288) || (c =? 65279))%N.

Fixpoint trimStart (s : jsstring) : jsstring :=
  match s with
  | [] => []
  | c :: s' => if isWhiteSpace c then trimStart s' else s
  end.

Definition trimEnd (s : jsstring) : jsstring :=
  reverse (trimStart (reverse s)).

Definition trim (s : jsstring) : jsstring :=
  trimEnd (trimStart s).

(** ** Token and settings management *)

(** The value kept per user in [userSettings], and the shape of the
    [settings] argument of [setUserSettings]: each field is a string or
    [null]. *)
Record Settings := mkSettings {
  expiry : option jsstring;
  compression : option jsstring
}.

#[global] Instance Settings_eq_dec : EqDecision Settings.
Proof. solve_decision. Defined.

(** The two in-memory objects and the two files mirroring them. *)
Record Store := mkStore {
  userTokens : gmap jsstring jsstring;
  userSettings : gmap jsstring Settings;
  tokensFile : gmap jsstring jsstring;
  settingsFile : gmap jsstring Settings
}.

(** Start-up when neither file exists: both are created holding [{}]. *)
Definition initialStore : Store :=
  {| userTokens := ∅; userSettings := ∅; tokensFile := ∅; settingsFile := ∅ |}.

Definition saveTokens (st : Store) : Store :=
  {| userTokens := userTokens st; userSettings := userSettings st;
     tokensFile := userTokens st; settingsFile := settingsFile st |}.

Definition saveSettings (st : Store) : Store :=
  {| userTokens := userTokens st; userSettings := userSettings st;
     tokensFile := tokensFile st; settingsFile := userSettings st |}.

(** [userTokens[userId] || null]: a missing entry and an entry holding the
    empty string both give [null]. *)
Definition getUserToken (userId : jsstring) (st : Store) : option jsstring :=
  match userTokens st !! userId with
  | Some token => if truthy token then Some token else None
  | None => None
  end.

Definition setUserToken (userId token : jsstring) (st : Store) : Store :=
  saveTokens
    {| userTokens := <[userId := token]> (userTokens st);
       userSettings := userSettings st;
       tokensFile := tokensFile st; settingsFile := settingsFile st |}.

Definition deleteUserToken (userId : jsstring) (st : Store) : Store :=
  saveTokens
    {| userTokens := delete userId (userTokens st);
       userSettings := userSettings st;
       tokensFile := tokensFile st; settingsFile := settingsFile st |}.

(** [userSettings[userId] || { expiry: null, compression: null }]: a stored
    record is an object, hence truthy. *)
Definition getUserSettings (userId : jsstring) (st : Store) : Settings :=
  match userSettings st !! userId with
  | Some s => s
  | None => {| expiry := None; compression := None |}
  end.

(** [field?.trim() || null]. *)
Definition trimOrNull (field : option jsstring) : option jsstring :=
  match field with
  | None => None
  | Some s => if truthy (trim s) then Some (trim s) else None
  end.

Definition setUserSettings (userId : jsstring) (settings : Settings)
    (st : Store) : Store :=
  saveSettings
    {| userTokens := userTokens st;
       userSettings :=
         <[userId := {| expiry := trimOrNull (expiry settings);
                        compression := trimOrNull (compression settings) |}]>
           (userSettings st);
       tokensFile := tokensFile st; settingsFile := settingsFile st |}.

(** ** Errors and remote outcomes *)

(** The exceptions the program can raise, one constructor per [throw] site
    or rejecting library call. *)
Inductive Error :=
  | FetchRejected                       (* [fetch] itself rejects *)
  | JsonError                           (* [res.json()] / [JSON.parse] *)
  | UserApiError (status : Z)           (* Zipline /api/user error <status> *)
  | FilesApiError (status : Z) (text : jsstring)
                                        (* Zipline /api/user/files error ... *)
  | StatsApiError (status : Z)          (* Zipline /api/stats error <status> *)
  | DownloadFailed                      (* Failed to download attachment *)
  | BodyStreamError                     (* [dlRes.body] emits 'error' *)
  | UploadApiError (status : Z)         (* Zipline upload error <status> *)
  | Enoent.                             (* [fs.unlinkSync] on a missing path *)

Inductive result (A : Type) :=
  | Ok (a : A)
  | Throw (e : Error).
Arguments Ok {A} a.
Arguments Throw {A} e.

(** What one [fetch] call leads to: a rejection, or a response with its
    [ok] flag, its status, its body text and the value the text parses to
    ([None] when it is not JSON). *)
Inductive HttpOutcome (B : Type) :=
  | Rejected
  | Response (ok : bool) (status : Z) (text : jsstring) (json : option B).
Arguments Rejected {B}.
Arguments Response {B} ok status text json.

(** [res.json()] on a response. *)
Definition resJson {B} (json : option B) : result B :=
  match json with
  | Some b => Ok b
  | None => Throw JsonError
  end.

(** ** Remote data *)

Record UploadRecord := mkUpload {
  up_id : jsstring;
  up_originalName : option jsstring;
  up_name : option jsstring;
  up_url : option jsstring;
  up_size : option Z;
  up_createdAt : option jsstring
}.

(** The body of [GET /api/user/files]: [page] holds the items ([None] when
    the field is missing or falsy), [pages] the number [resp.pages] is
    compared as ([None] when the field is missing or converts to NaN, so
    that [page >= resp.pages] is false; a [null] count compares as 0). *)
Record FilesResponse := mkFilesResponse {
  resp_page : option (list UploadRecord);
  resp_pages : option Z
}.

Record Quota := mkQuota { q_used : option Z; q_max : option Z }.

Record Me := mkMe {
  me_username : option jsstring;
  me_role : option jsstring;
  me_quota : option Quota
}.

Record ZipStats := mkZipStats {
  zs_error : option jsstring;
  zs_users : option Z;
  zs_files : option Z;
  zs_size : option Z
}.

Record UploadedFile := mkUploadedFile {
  uf_url : option jsstring;
  uf_id : jsstring
}.

Record UploadJson := mkUploadJson { uj_files : option (list UploadedFile) }.

(** The readings of the [os] module shown by the stats command; uptime and
    load average are kept in thousandths. *)
Record HostStats := mkHostStats {
  hs_os : jsstring;
  hs_uptime : Z;
  hs_loadAvg : Z;
  hs_totalMem : Z;
  hs_freeMem : Z;
  hs_usedMem : Z;
  hs_cpuCount : Z
}.

(** The body stream of the download response piped into the staging file:
    it ends after delivering [bytes], or emits 'error' after [written] bytes
    have reached the file. *)
Inductive BodyStream :=
  | StreamEnds (bytes : list N)
  | StreamErrors (written : list N).

Inductive Download :=
  | DownloadRejected
  | DownloadResponse (ok : bool) (body : BodyStream).

(** Everything outside the process that the handlers read. *)
Record World := mkWorld {
  apiUser : jsstring -> HttpOutcome Me;
  apiFiles : jsstring -> Z -> Z -> HttpOutcome FilesResponse;
  apiStats : HttpOutcome ZipStats;
  attachment : jsstring -> Download;
  apiUpload : list (jsstring * jsstring) -> list N -> HttpOutcome UploadJson;
  baseUrl : jsstring;                          (* [ZIPLINE_BASE_URL] *)
  clock : jsstring;                            (* digits of [Date.now()] *)
  formHeaders : list (jsstring * jsstring);    (* [form.getHeaders()] *)
  hostStats : HostStats
}.

(** ** User info API *)

Definition ziplineGetMe (w : World) (token : jsstring) : result Me :=
  match apiUser w token with
  | Rejected => Throw FetchRejected
  | Response ok status _ json =>
      if negb ok then Throw (UserApiError status) else resJson json
  end.

(** ** Fetch one page of uploads *)

Definition ziplineFetchUserUploads (w : World) (token : jsstring)
    (page perpage : Z) : result FilesResponse :=
  match apiFiles w token page perpage with
  | Rejected => Throw FetchRejected
  | Response ok status text json =>
      if negb ok then Throw (FilesApiError status text) else resJson json
  end.

(** ** Fetch all uploads *)

(** [page >= resp.pages]. *)
Definition reachedPages (page : Z) (pages : option Z) : bool :=
  match pages with
  | Some n => (n <=? page)%Z
  | None => false
  end.

(** The [while (true)] loop of [ziplineFetchAllUserUploads]; [fuel] bounds
    the number of iterations and [None] says it was used up. *)
Fixpoint fetchAllLoop (w : World) (token : jsstring) (fuel : nat)
    (page : Z) (allUploads : list UploadRecord)
    : option (result (list UploadRecord)) :=
  match fuel with
  | O => None
  | S fuel' =>
      match ziplineFetchUserUploads w token page 50 with
      | Throw e => Some (Throw e)
      | Ok resp =>
          match resp_page resp with
          | None => Some (Ok allUploads)
          | Some [] => Some (Ok allUploads)
          | Some items =>
              if reachedPages page (resp_pages resp)
              then Some (Ok (allUploads ++ items))
              else fetchAllLoop w token fuel' (page + 1)%Z
                     (allUploads ++ items)
          end
      end
  end.

Definition ziplineFetchAllUserUploads (w : World) (token : jsstring)
    (fuel : nat) : option (result (list UploadRecord)) :=
  fetchAllLoop w token fuel 1%Z [].

(** ** Upload file (with user settings) *)

(** The files of the working directory, by path. *)
Abbreviation FileSystem := (gmap jsstring (list N)).

(** [path.join('./', `tmp_${Date.now()}_${filename}`)], with [now] the
    decimal digits of [Date.now()]. *)
Definition tmpPath (now filename : jsstring) : jsstring :=
  js "tmp_" ++ now ++ js "_" ++ filename.

Definition unlinkSync (p : jsstring) (fs : FileSystem) : result FileSystem :=
  match fs !! p with
  | Some _ => Ok (delete p fs)
  | None => Throw Enoent
  end.

(** A header is added when the setting is neither [null] nor empty. *)
Definition optionalHeader (name : jsstring) (value : option jsstring)
    : list (jsstring * jsstring) :=
  match value with
  | Some v => if truthy v then [(name, v)] else []
  | None => []
  end.

Definition uploadHeaders (token : jsstring)
    (formHeaders : list (jsstring * jsstring)) (settings : Settings)
    : list (jsstring * jsstring) :=
  (js "Authorization", token) :: formHeaders
  ++ optionalHeader (js "x-zipline-deletes-at") (expiry settings)
  ++ optionalHeader (js "x-zipline-compression") (compression settings).

(** [ziplineUploadFromUrl]: the result or exception, and the file system it
    leaves behind.  [createWriteStream] creates the staging file, the pipe
    fills it, [unlinkSync] runs once the upload request has been answered. *)
Definition ziplineUploadFromUrl (w : World) (st : Store)
    (now : jsstring) (formHeaders : list (jsstring * jsstring))
    (token fileUrl filename userId : jsstring) (fs : FileSystem)
    : result UploadJson * FileSystem :=
  let settings := getUserSettings userId st in
  let tmp := tmpPath now filename in
  match attachment w fileUrl with
  | DownloadRejected => (Throw FetchRejected, fs)
  | DownloadResponse ok body =>
      if negb ok then (Throw DownloadFailed, fs) else
      match body with
      | StreamErrors written => (Throw BodyStreamError, <[tmp := written]> fs)
      | StreamEnds bytes =>
          let fs1 := <[tmp := bytes]> fs in
          let headers := uploadHeaders token formHeaders settings in
          match apiUpload w headers bytes with
          | Rejected => (Throw FetchRejected, fs1)
          | Response ok' status _ json =>
              match unlinkSync tmp fs1 with
              | Throw e => (Throw e, fs1)
              | Ok fs2 =>
                  if negb ok' then (Throw (UploadApiError status), fs2)
                  else (resJson json, fs2)
              end
          end
      end
  end.

(** ** What the bot sends *)

(** One page of the listing as [createEmbed] builds it: the footer
    [Page <page + 1> of <totalPages>] and the items of the slice, one
    description line each. *)
Record Embed := mkEmbed {
  em_footerPage : Z;
  em_footerTotal : Z;
  em_items : list UploadRecord
}.

(** The action row: the [setDisabled] flags of the two buttons. *)
Record Controls := mkControls {
  prevDisabled : bool;
  nextDisabled : bool
}.

(** The Zipline part of the stats text: the error line, or the three
    figures, each [None] when it is shown as a question mark. *)
Inductive ZipSection :=
  | ZipErrorLine (msg : jsstring)
  | ZipFigures (users files size : option Z).

(** The user part of the stats text: user name ([None]: question mark),
    used bytes, maximum ([None]: unlimited). *)
Record MeSection := mkMeSection {
  ms_username : option jsstring;
  ms_used : Z;
  ms_max : option Z
}.

(** The texts the bot sends. *)
Inductive Message :=
  | TokenSaved
  | LoggedOut
  | InviteLink
  | AboutTheBot
  | SetTokenFirst
  | NoUploadsFound
  | SettingsSaved
  | ErrorOccurred
  | OnlyYouCanNavigate
  | MeInfo (data : Me)
  | UploadSuccessful (urls : list jsstring)
  | StatsText (host : HostStats) (zip : ZipSection) (me : MeSection).

(** The calls on the chat platform and the logger, in the order made. *)
Inductive Effect :=
  | Reply (m : Message)                     (* [interaction.reply] *)
  | DeferReply                              (* [interaction.deferReply] *)
  | EditReply (m : Message)                 (* [interaction.editReply] *)
  | ReplyPage (e : Embed) (c : Controls)    (* the reply of [paginateUploads] *)
  | NavReply (m : Message)                  (* [i.reply], ephemeral *)
  | NavUpdate (e : Embed) (c : Controls)    (* [i.update] *)
  | MessageEdit (components : list Controls)  (* [message.edit] *)
  | LogError (e : Error) (ctx : jsstring).  (* [logError] *)

(** ** Pagination session *)

Definition pageSize : Z := 5.

(** [Math.ceil(n / d)] for integers [0 <= n] and [0 < d]. *)
Definition ceilDiv (n d : Z) : Z := (- ((- n) / d))%Z.

Definition totalPages (uploads : list UploadRecord) : Z :=
  ceilDiv (Z.of_nat (List.length uploads)) pageSize.

(** [uploads.slice(from, to)] for [0 <= from]. *)
Definition slice (uploads : list UploadRecord) (from to : Z)
    : list UploadRecord :=
  take (Z.to_nat to - Z.to_nat from) (drop (Z.to_nat from) uploads).

(** The variables the two listeners of [paginateUploads] close over:
    [interaction.user.id], [uploads] and the mutable [page]. *)
Record Session := mkSession {
  s_owner : jsstring;
  s_uploads : list UploadRecord;
  s_page : Z
}.

Definition createEmbed (s : Session) : Embed :=
  {| em_footerPage := (s_page s + 1)%Z;
     em_footerTotal := totalPages (s_uploads s);
     em_items := slice (s_uploads s) (s_page s * pageSize)%Z
                   ((s_page s + 1) * pageSize)%Z |}.

Definition controls (s : Session) : Controls :=
  {| prevDisabled := bool_decide (s_page s = 0%Z);
     nextDisabled := bool_decide ((s_page s + 1)%Z = totalPages (s_uploads s)) |}.

(** A button press: who pressed, and the [customId] of the button. *)
Record NavEvent := mkNavEvent {
  ev_user : jsstring;
  ev_customId : jsstring
}.

Definition withPage (s : Session) (p : Z) : Session :=
  {| s_owner := s_owner s; s_uploads := s_uploads s; s_page := p |}.

(** The 'collect' listener. *)
Definition onCollect (s : Session) (i : NavEvent) : Session * list Effect :=
  if bool_decide (ev_user i ≠ s_owner s)
  then (s, [NavReply OnlyYouCanNavigate])
  else
    let p1 := if bool_decide (ev_customId i = js "prev") && (0 <? s_page s)%Z
              then (s_page s - 1)%Z else s_page s in
    let p2 := if bool_decide (ev_customId i = js "next")
                 && (p1 <? totalPages (s_uploads s) - 1)%Z
              then (p1 + 1)%Z else p1 in
    let s' := withPage s p2 in
    (s', [NavUpdate (createEmbed s') (controls s')]).

(** The 'end' listener: [message.edit({ components: [] })]. *)
Definition onEnd : list Effect := [MessageEdit []].

(** The collector made by [createMessageComponentCollector({ time: 60000 })],
    after discord.js: a timer set at creation calls [stop] when [time]
    milliseconds have passed; [stop] returns at once on an ended collector
    and otherwise marks it ended and emits 'end'; an ended collector no
    longer listens to interactions. *)
Record Collector := mkCollector {
  c_session : Session;
  c_ended : bool
}.

Definition collectorTime : Z := 60000.

Inductive CollectorInput :=
  | Pressed (i : NavEvent)
  | TimeElapsed.

Definition collectorStep (c : Collector) (x : CollectorInput)
    : Collector * list Effect :=
  if c_ended c then (c, [])
  else
    match x with
    | Pressed i =>
        let '(s', out) := onCollect (c_session c) i in
        ({| c_session := s'; c_ended := false |}, out)
    | TimeElapsed =>
        ({| c_session := c_session c; c_ended := true |}, onEnd)
    end.

Fixpoint collectorRun (c : Collector) (xs : list CollectorInput)
    : Collector * list Effect :=
  match xs with
  | [] => (c, [])
  | x :: xs' =>
      let '(c1, out1) := collectorStep c x in
      let '(c2, out2) := collectorRun c1 xs' in
      (c2, out1 ++ out2)
  end.

(** What the dispatcher delivers to a collector whose buttons are pressed
    at the given times (milliseconds since its creation, in order) and
    which is watched until its timer has run out: the timer's input comes
    before the first press at or after [collectorTime]. *)
Fixpoint timeline (timerPending : bool) (presses : list (Z * NavEvent))
    : list CollectorInput :=
  match presses with
  | [] => if timerPending then [TimeElapsed] else []
  | (t, i) :: rest =>
      if timerPending && (collectorTime <=? t)%Z
      then TimeElapsed :: Pressed i :: timeline false rest
      else Pressed i :: timeline timerPending rest
  end.

(** [paginateUploads]: the first page is sent and the collector starts. *)
Definition paginateUploads (owner : jsstring) (uploads : list UploadRecord)
    : Collector * list Effect :=
  let s := {| s_owner := owner; s_uploads := uploads; s_page := 0%Z |} in
  ({| c_session := s; c_ended := false |},
   [ReplyPage (createEmbed s) (controls s)]).

(** ** Zipline stats API *)

Definition ziplineGetStats (w : World) : result ZipStats :=
  match apiStats w with
  | Rejected => Throw FetchRejected
  | Response ok status _ json =>
      if negb ok then Throw (StatsApiError status) else resJson json
  end.

(** ** The command handler *)

Inductive Subcommand :=
  | SetTokenCmd (token : jsstring)
  | LogoutCmd
  | InviteCmd
  | AboutCmd
  | MeCmd
  | ListCmd
  | UploadCmd (url name : jsstring)
  | SettingsCmd (expiryOption compressionOption : option jsstring)
  | StatsCmd.

(** The state that outlives one command: the stores, the working directory
    and the collectors at work. *)
Record App := mkApp {
  app_store : Store;
  app_fs : FileSystem;
  app_collectors : list Collector
}.

(** What the [try] block of the handler did: the state it left, what it
    sent, and whether it completed or threw. *)
Record Run := mkRun {
  run_app : App;
  run_sent : list Effect;
  run_result : result unit
}.

Definition withStore (app : App) (st : Store) : App :=
  {| app_store := st; app_fs := app_fs app;
     app_collectors := app_collectors app |}.

Definition withFs (app : App) (fs : FileSystem) : App :=
  {| app_store := app_store app; app_fs := fs;
     app_collectors := app_collectors app |}.

(** [zipStats = { error: 'Unavailable' }]. *)
Definition statsUnavailable : ZipStats :=
  {| zs_error := Some (js "Unavailable"); zs_users := None;
     zs_files := None; zs_size := None |}.

(** [userMe = { username: 'Unknown', quota: { used: 0, max: 0 } }]. *)
Definition meUnknown : Me :=
  {| me_username := Some (js "Unknown"); me_role := None;
     me_quota := Some {| q_used := Some 0%Z; q_max := Some 0%Z |} |}.

(** [x ? ... : fallback] on a number: zero counts as missing. *)
Definition nonZero (x : option Z) : option Z :=
  match x with
  | Some 0%Z => None
  | _ => x
  end.

Definition zipSection (z : ZipStats) : ZipSection :=
  let figures := ZipFigures (zs_users z) (zs_files z) (nonZero (zs_size z)) in
  match zs_error z with
  | Some e => if truthy e then ZipErrorLine e else figures
  | None => figures
  end.

Definition meSection (m : Me) : MeSection :=
  {| ms_username := me_username m;
     ms_used := default 0%Z (q ← me_quota m; q_used q);
     ms_max := nonZero (q ← me_quota m; q_max q) |}.

(** The body of [if (sub === 'stats')]. *)
Definition statsCommand (w : World) (token : jsstring) : list Effect :=
  let zipStats :=
    match ziplineGetStats w with
    | Ok z => z
    | Throw _ => statsUnavailable
    end in
  let userMe :=
    match ziplineGetMe w token with
    | Ok m => m
    | Throw _ => meUnknown
    end in
  [DeferReply;
   EditReply (StatsText (hostStats w) (zipSection zipStats) (meSection userMe))].

(** [f.url || `${ZIPLINE_BASE_URL}/u/${f.id}`]. *)
Definition fileUrl (w : World) (f : UploadedFile) : jsstring :=
  match uf_url f with
  | Some u => if truthy u then u else baseUrl w ++ js "/u/" ++ uf_id f
  | None => baseUrl w ++ js "/u/" ++ uf_id f
  end.

(** The [try] block of the 'interactionCreate' listener, for a command of
    the user [userId]; [fuel] bounds the loop of the listing. *)
Definition handleSubcommand (w : World) (fuel : nat) (userId : jsstring)
    (sub : Subcommand) (app : App) : option Run :=
  let done app' sent := Some (mkRun app' sent (Ok ())) in
  let thrown app' sent e := Some (mkRun app' sent (Throw e)) in
  match sub with
  | SetTokenCmd token =>
      done (withStore app (setUserToken userId token (app_store app)))
        [Reply TokenSaved]
  | LogoutCmd =>
      done (withStore app (deleteUserToken userId (app_store app)))
        [Reply LoggedOut]
  | InviteCmd => done app [Reply InviteLink]
  | AboutCmd => done app [Reply AboutTheBot]
  | _ =>
      match getUserToken userId (app_store app) with
      | None => done app [Reply SetTokenFirst]
      | Some token =>
          match sub with
          | MeCmd =>
              match ziplineGetMe w token with
              | Ok data => done app [DeferReply; EditReply (MeInfo data)]
              | Throw e => thrown app [DeferReply] e
              end
          | ListCmd =>
              match ziplineFetchAllUserUploads w token fuel with
              | None => None
              | Some (Throw e) => thrown app [] e
              | Some (Ok []) => done app [Reply NoUploadsFound]
              | Some (Ok uploads) =>
                  let '(c, sent) := paginateUploads userId uploads in
                  done {| app_store := app_store app; app_fs := app_fs app;
                          app_collectors := c :: app_collectors app |} sent
              end
          | UploadCmd url name =>
              match ziplineUploadFromUrl w (app_store app) (clock w)
                      (formHeaders w) token url name userId (app_fs app) with
              | (Ok uploadResp, fs') =>
                  done (withFs app fs')
                    [DeferReply;
                     EditReply (UploadSuccessful
                       (fileUrl w <$> default [] (uj_files uploadResp)))]
              | (Throw e, fs') => thrown (withFs app fs') [DeferReply] e
              end
          | SettingsCmd expiryOption compressionOption =>
              done
                (withStore app
                   (setUserSettings userId
                      {| expiry := expiryOption;
                         compression := compressionOption |}
                      (app_store app)))
                [Reply SettingsSaved]
          | StatsCmd => done app (statsCommand w token)
          | _ => done app []
          end
      end
  end.

(** [interaction.deferred || interaction.replied]. *)
Definition deferredOrReplied (sent : list Effect) : bool :=
  existsb (fun e => match e with
                    | Reply _ | DeferReply | ReplyPage _ _ => true
                    | _ => false
                    end) sent.

(** The 'interactionCreate' listener: the [try] block and its [catch]. *)
Definition interactionCreate (w : World) (fuel : nat) (userId : jsstring)
    (sub : Subcommand) (app : App) : option (App * list Effect) :=
  match handleSubcommand w fuel userId sub app with
  | None => None
  | Some run =>
      match run_result run with
      | Ok _ => Some (run_app run, run_sent run)
      | Throw e =>
          Some (run_app run,
                run_sent run
                ++ [LogError e (js "InteractionHandler");
                    if deferredOrReplied (run_sent run)
                    then EditReply ErrorOccurred
                    else Reply ErrorOccurred])
      end
  end.

(** ** The settings normalisation, as the specification words it *)

Definition allWhiteSpace (s : jsstring) : Prop :=
  Forall (fun c => isWhiteSpace c = true) s.

Definition noWhiteSpaceAtEnds (t : jsstring) : Prop :=
  (forall c, head t = Some c -> isWhiteSpace c = false)
  /\ (forall c, last t = Some c -> isWhiteSpace c = false).

(** [t] is [s] without its surrounding whitespace. *)
Definition trimmedOf (s t : jsstring) : Prop :=
  exists pre suf,
    s = pre ++ t ++ suf /\ allWhiteSpace pre /\ allWhiteSpace suf
    /\ noWhiteSpaceAtEnds t.

(** A field given as [input] is stored as [stored]: absent stays absent, an
    empty or whitespace-only string becomes absent, anything else is stored
    trimmed. *)
Definition normalizedField (input stored : option jsstring) : Prop :=
  match input with
  | None => stored = None
  | Some s =>
      (allWhiteSpace s -> stored = None)
      /\ (~ allWhiteSpace s ->
          exists t, stored = Some t /\ t <> [] /\ trimmedOf s t)
  end.

(** ** The page count, as the specification words it *)

(** [t] is the least integer not below the quotient [n / d]. *)
Definition isCeiling (n d t : Z) : Prop :=
  (d * (t - 1) < n <= d * t)%Z.

(** ** The navigation transitions, as the specification words them *)

(** "Previous" is allowed only if the index is above 0 and decrements it;
    "next" is allowed only if the index plus one is below the page count and
    increments it; anything else leaves the index. *)
Definition navigated (customId : jsstring) (page total : Z) : Z :=
  if bool_decide (customId = js "prev")
  then (if bool_decide (0 < page)%Z then page - 1 else page)%Z
  else if bool_decide (customId = js "next")
       then (if bool_decide (page + 1 < total)%Z then page + 1 else page)%Z
       else page.

(** The edit that strips the buttons. *)
Definition isFinalEdit (e : Effect) : Prop := e = MessageEdit [].

(** ** The listing, as the specification words it *)

(** The remote holds the finite sequence of pages [ps] and is consistent:
    page [k + 1] is the [k]-th of them and every response reports
    [length ps] pages.  Nothing is said of a request past the last page. *)
Definition servesPages (w : World) (token : jsstring)
    (ps : list (list UploadRecord)) : Prop :=
  forall k items, ps !! k = Some items ->
    ziplineFetchUserUploads w token (Z.of_nat k + 1) 50
    = Ok {| resp_page := Some items;
            resp_pages := Some (Z.of_nat (List.length ps)) |}.

(** The remote reports page [page] as empty. *)
Definition emptyPage (w : World) (token : jsstring) (page : Z) : Prop :=
  exists resp,
    ziplineFetchUserUploads w token page 50 = Ok resp
    /\ (resp_page resp = None \/ resp_page resp = Some []).

(** The pages up to the first empty one. *)
Fixpoint pagesUntilEmpty (ps : list (list UploadRecord))
    : list (list UploadRecord) :=
  match ps with
  | [] => []
  | [] :: _ => []
  | p :: rest => p :: pagesUntilEmpty rest
  end.

(** The items of page [page] as the remote answers. *)
Definition pageItems (w : World) (token : jsstring) (page : Z)
    : list UploadRecord :=
  match ziplineFetchUserUploads w token page 50 with
  | Ok resp => default [] (resp_page resp)
  | Throw _ => []
  end.

(** The items of the [n] pages from [page] on, in page order. *)
Fixpoint pagesFrom (w : World) (token : jsstring) (page : Z) (n : nat)
    : list UploadRecord :=
  match n with
  | O => []
  | S n' => pageItems w token page ++ pagesFrom w token (page + 1) n'
  end.

(** ** Sample data *)

Definition upload (n : N) : UploadRecord :=
  mkUpload [n] None None None None None.

Definition twelve : list UploadRecord :=
  upload <$> [0; 1; 2; 3; 4; 5; 6; 7; 8; 9; 10; 11]%N.

(** A remote that answers the listing by [files] and nothing else. *)
Definition listingWorld
    (files : jsstring -> Z -> Z -> HttpOutcome FilesResponse) : World :=
  {| apiUser := fun _ => Rejected;
     apiFiles := files;
     apiStats := Rejected;
     attachment := fun _ => DownloadRejected;
     apiUpload := fun _ _ => Rejected;
     baseUrl := js "https://zip.example";
     clock := js "1700000000000";
     formHeaders := [];
     hostStats := mkHostStats (js "Linux") 0 0 0 0 0 1 |}.

(** A consistent remote holding the pages [ps]; a request past the last
    page is answered 404. *)
Definition remoteOf (ps : list (list UploadRecord)) : World :=
  listingWorld (fun _ page _ =>
    match ps !! Z.to_nat (page - 1) with
    | Some items =>
        Response true 200 []
          (Some {| resp_page := Some items;
                   resp_pages := Some (Z.of_nat (List.length ps)) |})
    | None => Response false 404 (js "Not Found") None
    end).

(** A remote that reports 99 pages and has two, the third being empty. *)
Definition misreporting : World :=
  listingWorld (fun _ page _ =>
    Response true 200 []
      (Some {| resp_page :=
                 Some (if bool_decide (page = 1%Z) then [upload 1]
                       else if bool_decide (page = 2%Z) then [upload 2]
                       else []);
               resp_pages := Some 99%Z |})).

(** A remote that never reports a page count and never an empty page. *)
Definition endless : World :=
  listingWorld (fun _ _ _ =>
    Response true 200 []
      (Some {| resp_page := Some [upload 0]; resp_pages := None |})).

(** A download that answers 200 and breaks after three bytes. *)
Definition brokenDownload : World :=
  {| apiUser := fun _ => Rejected;
     apiFiles := fun _ _ _ => Rejected;
     apiStats := Rejected;
     attachment := fun _ => DownloadResponse true (StreamErrors [137; 80; 78]%N);
     apiUpload := fun _ _ =>
       Response true 200 [] (Some {| uj_files := Some [] |});
     baseUrl := js "https://zip.example";
     clock := js "1700000000000";
     formHeaders := [];
     hostStats := mkHostStats (js "Linux") 0 0 0 0 0 1 |}.

Definition alice : jsstring := js "1001".
Definition bob : jsstring := js "2002".

(** ** The description line of an upload *)

(** [a || b] on strings. *)
Definition orString (a : option jsstring) (b : jsstring) : jsstring :=
  match a with
  | Some s => if truthy s then s else b
  | None => b
  end.

(** [str.slice(0, e)]: a negative [e] counts from the end. *)
Definition sliceTo (str : jsstring) (e : Z) : jsstring :=
  if (e <? 0)%Z
  then take (Z.to_nat (Z.of_nat (List.length str) + e)) str
  else take (Z.to_nat e) str.

(** [trimString(str, maxLength)] of [createEmbed], with [mark] the string
    literal appended to a cut string. *)
Definition trimStringWith (mark : jsstring) (str : option jsstring)
    (maxLength : Z) : jsstring :=
  match str with
  | None => []
  | Some s =>
      if negb (truthy s) then []
      else if (maxLength <? Z.of_nat (List.length s))%Z
           then sliceTo s (maxLength - 1) ++ mark
           else s
  end.

(** The literal of line 228 of [src/index.js] as the file has it: the
    three code units U+00E2, U+20AC, U+00A6 (an ellipsis whose UTF-8 bytes
    were read as Windows-1252 and saved again). *)
Definition cutMark : jsstring := [226; 8364; 166]%N.

Definition trimString (str : option jsstring) (maxLength : Z) : jsstring :=
  trimStringWith cutMark str maxLength.

(** [trimString(f.originalName || f.name || 'Unnamed', 15)]. *)
Definition displayName (f : UploadRecord) : jsstring :=
  trimString
    (Some (orString (up_originalName f)
             (orString (up_name f) (js "Unnamed")))) 15.

Definition startsWith (s p : jsstring) : bool :=
  bool_decide (p `prefix_of` s).

(** [f.url && f.url.startsWith('http') ? f.url
     : `${ZIPLINE_BASE_URL}${f.url || `/u/${f.id}`}`]. *)
Definition uploadUrl (base : jsstring) (f : UploadRecord) : jsstring :=
  if match up_url f with
     | Some u => truthy u && startsWith u (js "http")
     | None => false
     end
  then default [] (up_url f)
  else base ++ orString (up_url f) (js "/u/" ++ up_id f).

(** The decimal digits of a natural number. *)
Fixpoint uintUnits (d : Decimal.uint) : jsstring :=
  match d with
  | Decimal.Nil => []
  | Decimal.D0 d' => 48%N :: uintUnits d'
  | Decimal.D1 d' => 49%N :: uintUnits d'
  | Decimal.D2 d' => 50%N :: uintUnits d'
  | Decimal.D3 d' => 51%N :: uintUnits d'
  | Decimal.D4 d' => 52%N :: uintUnits d'
  | Decimal.D5 d' => 53%N :: uintUnits d'
  | Decimal.D6 d' => 54%N :: uintUnits d'
  | Decimal.D7 d' => 55%N :: uintUnits d'
  | Decimal.D8 d' => 56%N :: uintUnits d'
  | Decimal.D9 d' => 57%N :: uintUnits d'
  end.

Definition decimalDigits (n : N) : jsstring := uintUnits (N.to_uint n).

(** The integer [n] for which [n / 10^f] is closest to [a / den], the
    larger one of two; [0 <= a], [0 < den]. *)
Definition roundHalfUp (a den : Z) (f : nat) : Z :=
  ((2 * a * 10 ^ Z.of_nat f + den) / (2 * den))%Z.

(** The digits of [n / 10^f] with [f] decimals: those of [n], filled up
    with zeros to [f + 1] digits, the point before the last [f]. *)
Definition fixedDigits (n : Z) (f : nat) : jsstring :=
  let digits := decimalDigits (Z.to_N n) in
  let m := replicate (S f - List.length digits) 48%N ++ digits in
  let k := List.length m - f in
  match f with
  | O => m
  | S _ => take k m ++ js "." ++ drop k m
  end.

(** [(num / den).toFixed(f)] for [den] a power of two and [num] a safe
    integer ([|num| < 2^53]): only then is the quotient exact as a double
    and below 1e21, where [toFixed] leaves the fixed notation.  Outside
    that range the definition says nothing about the code. *)
Definition toFixed (num den : Z) (f : nat) : jsstring :=
  (if (num <? 0)%Z then js "-" else [])
  ++ fixedDigits (roundHalfUp (Z.abs num) den f) f.

(** [formatFileSize(bytes)] of [paginateUploads], for a size that is a
    safe integer. *)
Definition formatFileSize (bytes : option Z) : jsstring :=
  match bytes with
  | None => js "unknown"
  | Some 0%Z => js "unknown"
  | Some b =>
      let kb := 1024%Z in
      let mb := (kb * 1024)%Z in
      if (b <? mb)%Z then toFixed b kb 1 ++ js " KB"
      else toFixed b mb 2 ++ js " MB"
  end.

(** ** Helper: human-readable OS name *)

(** The code units that end a line for [.] and for [^] and [$] under the
    [m] flag. *)
Definition isLineTerminator (c : N) : bool :=
  ((c =? 10) || (c =? 13) || (c =? 8232) || (c =? 8233))%N.

(** The lines of a text, cut at every line terminator. *)
Fixpoint linesOf (s : jsstring) : list jsstring :=
  match s with
  | [] => [[]]
  | c :: s' =>
      if isLineTerminator c then [] :: linesOf s'
      else match linesOf s' with
           | [] => [[c]]
           | l :: ls => (c :: l) :: ls
           end
  end.

Definition dquote : N := 34%N.

Definition prettyNamePrefix : jsstring := js "PRETTY_NAME=" ++ [dquote].

(** The group captured on one line by [/^PRETTY_NAME="(.+)"$/]: the line
    starts with the prefix, ends with a quote, and what lies between is not
    empty. *)
Definition prettyNameOfLine (line : jsstring) : option jsstring :=
  if startsWith line prettyNamePrefix
  then
    let rest := drop (List.length prettyNamePrefix) line in
    match last rest with
    | Some q =>
        if (q =? dquote)%N && (1 <? List.length rest)
        then Some (take (List.length rest - 1) rest)
        else None
    | None => None
    end
  else None.

(** [osRelease.match(/^PRETTY_NAME="(.+)"$/m)]: the first line that
    matches. *)
Definition matchPrettyName (osRelease : jsstring) : option jsstring :=
  list_find (fun l => is_Some (prettyNameOfLine l)) (linesOf osRelease)
  ≫= fun il => prettyNameOfLine il.2.

(** [getReadableOSName()], from [os.platform()], [os.release()] and the
    text of [/etc/os-release] ([None] when reading it throws). *)
Definition getReadableOSName (platform release : jsstring)
    (osRelease : option jsstring) : jsstring :=
  if bool_decide (platform = js "win32") then
    if startsWith release (js "10.0") then js "Windows Server 2016/2019/2022"
    else if startsWith release (js "6.3") then js "Windows Server 2012 R2"
    else if startsWith release (js "6.2") then js "Windows Server 2012"
    else if startsWith release (js "6.1") then js "Windows Server 2008 R2"
    else js "Windows (Release " ++ release ++ js ")"
  else if bool_decide (platform = js "linux") then
    match osRelease ≫= matchPrettyName with
    | Some name => name
    | None => js "Linux kernel " ++ release
    end
  else if bool_decide (platform = js "darwin") then js "macOS " ++ release
  else platform ++ js " " ++ release.

(** ** Token validation and settings dialogs *)

(** The bot variant of [src/deploy-commands.js] that validates a token
    before saving it and edits one setting at a time through a dialog.  Its
    stores, [getUserSettings] and [setUserSettings] are those above. *)
Module Dashboard.

Inductive ValidationError :=
  | HttpStatus (status : Z)     (* HTTP <status> - Invalid token or unauthorized *)
  | NetworkOrUrl.               (* Network error or invalid Zipline URL *)

(** The object [validateZiplineToken] resolves to; the quota is [None] when
    the fallback [{ used: 0, max: '∞' }] is taken. *)
Inductive Validation :=
  | Valid (user role : jsstring) (quota : option Quota)
  | Invalid (error : ValidationError).

Definition validateZiplineToken (w : World) (token : jsstring) : Validation :=
  match apiUser w token with
  | Rejected => Invalid NetworkOrUrl
  | Response ok status _ json =>
      if negb ok then Invalid (HttpStatus status)
      else match json with
           | Some data =>
               Valid (orString (me_username data) (js "Unknown"))
                 (orString (me_role data) (js "Unknown")) (me_quota data)
           | None => Invalid NetworkOrUrl
           end
  end.

Inductive Notice :=
  | TokenValidSaved (user role : jsstring) (quota : option Quota)
  | InvalidToken (error : ValidationError)
  | SettingsUpdated (s : Settings).

Inductive Sent :=
  | Deferred
  | Edited (n : Notice)
  | Replied (n : Notice).

(** The branch [sub === 'settoken']. *)
Definition settoken (w : World) (userId token : jsstring) (st : Store)
    : Store * list Sent :=
  match validateZiplineToken w token with
  | Valid user role quota =>
      (setUserToken userId token st,
       [Deferred; Edited (TokenValidSaved user role quota)])
  | Invalid error => (st, [Deferred; Edited (InvalidToken error)])
  end.

(** The branch for a submitted dialog: [customId] names the dialog and
    [value] is the text entered. *)
Definition modalSubmit (customId value userId : jsstring) (st : Store)
    : Store * list Sent :=
  if bool_decide (customId = js "edit_expiry")
     || bool_decide (customId = js "edit_compression")
  then
    let current := getUserSettings userId st in
    let st' :=
      if bool_decide (customId = js "edit_expiry")
      then setUserSettings userId
             {| expiry := Some value; compression := compression current |} st
      else setUserSettings userId
             {| expiry := expiry current; compression := Some value |} st in
    (st', [Replied (SettingsUpdated (getUserSettings userId st'))])
  else (st, []).

(** [trimString] of this variant appends the ellipsis U+2026. *)
Definition ellipsis : jsstring := [8230]%N.

Definition trimString (str : option jsstring) (maxLength : Z) : jsstring :=
  trimStringWith ellipsis str maxLength.

Definition displayName (f : UploadRecord) : jsstring :=
  trimString
    (Some (orString (up_originalName f)
             (orString (up_name f) (js "Unnamed")))) 15.

End Dashboard.

(** ** Predicates used in the properties *)

(** Both files hold what the objects hold. *)
Definition inSync (st : Store) : Prop :=
  tokensFile st = userTokens st /\ settingsFile st = userSettings st.

(** Page [page] makes the listing loop go on: it is not empty and the
    reported page count is not reached. *)
Definition continues (w : World) (token : jsstring) (page : Z) : Prop :=
  exists resp x items,
    ziplineFetchUserUploads w token page 50 = Ok resp
    /\ resp_page resp = Some (x :: items)
    /\ reachedPages page (resp_pages resp) = false.

(** Page [page] is the last one the loop takes: it is not empty and the
    reported page count is reached. *)
Definition finishes (w : World) (token : jsstring) (page : Z) : Prop :=
  exists resp x items,
    ziplineFetchUserUploads w token page 50 = Ok resp
    /\ resp_page resp = Some (x :: items)
    /\ reachedPages page (resp_pages resp) = true.


(** The page of [uploads] with index [p]. *)
Definition pageOf (uploads : list UploadRecord) (p : nat)
    : list UploadRecord :=
  slice uploads (Z.of_nat p * pageSize) ((Z.of_nat p + 1) * pageSize).

(** An update of the listing shows a page that exists and is not empty. *)
Definition showsRealPage (uploads : list UploadRecord) (e : Effect) : Prop :=
  match e with
  | NavUpdate em _ | ReplyPage em _ =>
      (1 <= em_footerPage em <= em_footerTotal em)%Z
      /\ em_footerTotal em = totalPages uploads
      /\ em_items em = pageOf uploads (Z.to_nat (em_footerPage em - 1))
      /\ em_items em <> []
  | _ => True
  end.

(** ** Further sample data *)

(** A remote whose download delivers three bytes and whose upload endpoint
    answers as given. *)
Definition uploadWorld (answer : HttpOutcome UploadJson) : World :=
  {| apiUser := fun _ => Rejected;
     apiFiles := fun _ _ _ => Rejected;
     apiStats := Rejected;
     attachment := fun _ => DownloadResponse true (StreamEnds [137; 80; 78]%N);
     apiUpload := fun _ _ => answer;
     baseUrl := js "https://zip.example";
     clock := js "1700000000000";
     formHeaders := [];
     hostStats := mkHostStats (js "Linux") 0 0 0 0 0 1 |}.

Definition catPng : jsstring := js "cat.png".
Definition catUrl : jsstring := js "https://cdn.example/cat.png".

(** A working directory holding one unrelated file. *)
Definition someFiles : FileSystem := {[ js "config.json" := [123; 125]%N ]}.

(** A text of [/etc/os-release]. *)
Definition osReleaseSample : jsstring :=
  js "NAME=Ubuntu" ++ [10%N]
  ++ prettyNamePrefix ++ js "Ubuntu 22.04.3 LTS" ++ [dquote; 10%N]
  ++ js "ID=ubuntu" ++ [10%N].

(** A settings record as [setUserSettings] stores it: trimming its fields
    again changes nothing. *)
Definition normalForm (s : Settings) : Prop :=
  trimOrNull (expiry s) = expiry s
  /\ trimOrNull (compression s) = compression s.

(** ** The stats text when a parsed body may be null *)

(** The largest integer a double holds exactly together with all smaller
    ones: [Number.MAX_SAFE_INTEGER]. *)
Definition maxSafeInteger : Z := (2 ^ 53 - 1)%Z.

(** A request whose body, if it parses, is a JSON object. *)
Definition parsed {A} (r : result A) : result (option A) :=
  match r with
  | Ok a => Ok (Some a)
  | Throw e => Throw e
  end.

(** Lines 441 to 481 of [src/index.js] on the outcomes of the two awaited
    requests, an outcome [Ok None] being a body that is the JSON value
    [null].  The fields of [zipStats] and [userMe] are read at lines 467 and
    476, outside the two inner [try] blocks; on [null] that read throws a
    TypeError, which is the result [None].  [statsCommand] is this function
    on bodies that are objects. *)
Definition statsReply (host : HostStats) (stats : result (option ZipStats))
    (me : result (option Me)) : option Message :=
  let zipStats :=
    match stats with
    | Ok z => z
    | Throw _ => Some statsUnavailable
    end in
  let userMe :=
    match me with
    | Ok m => m
    | Throw _ => Some meUnknown
    end in
  match zipStats, userMe with
  | Some z, Some m => Some (StatsText host (zipSection z) (meSection m))
  | _, _ => None
  end.

(* ===================================================================== *)
(** * Part II. Properties                                                 *)
(* ===================================================================== *)

(** ** JavaScript strings *)

Example trim_7d : trim (js " 7d ") = js "7d".
Proof. reflexivity. Qed.

Example trim_inner_space_kept : trim (js "  7 d") = js "7 d".
Proof. reflexivity. Qed.

Example trim_line_separator : trim [8232; 55; 65279]%N = [55]%N.
Proof. reflexivity. Qed.

Lemma trimStart_split (s : jsstring) :
  exists pre, s = pre ++ trimStart s /\ allWhiteSpace pre.
Proof.
  induction s as [|c s IH]; simpl.
  - exists []. split; [reflexivity | constructor].
  - destruct (isWhiteSpace c) eqn:Hc.
    + destruct IH as (pre & Heq & Hpre).
      exists (c :: pre). split.
      * simpl. congruence.
      * constructor; assumption.
    + exists []. split; [reflexivity | constructor].
Qed.

Lemma trimStart_head (s : jsstring) (c : N) :
  head (trimStart s) = Some c -> isWhiteSpace c = false.
Proof.
  induction s as [|d s IH]; simpl; [discriminate|].
  destruct (isWhiteSpace d) eqn:Hd; [exact IH|].
  simpl. intros [= <-]. exact Hd.
Qed.

Lemma trimStart_nil (s : jsstring) :
  trimStart s = [] <-> allWhiteSpace s.
Proof.
  unfold allWhiteSpace. induction s as [|c s IH]; simpl.
  - split; [constructor | reflexivity].
  - destruct (isWhiteSpace c) eqn:Hc.
    + rewrite IH. split.
      * intros H. constructor; assumption.
      * intros H. inversion H; assumption.
    + split; [discriminate|].
      intros H. inversion H; congruence.
Qed.

Lemma allWhiteSpace_reverse (s : jsstring) :
  allWhiteSpace (reverse s) <-> allWhiteSpace s.
Proof. unfold allWhiteSpace. apply Forall_reverse. Qed.

Lemma allWhiteSpace_app (s t : jsstring) :
  allWhiteSpace (s ++ t) <-> allWhiteSpace s /\ allWhiteSpace t.
Proof. unfold allWhiteSpace. apply Forall_app. Qed.

Lemma trimEnd_split (s : jsstring) :
  exists suf, s = trimEnd s ++ suf /\ allWhiteSpace suf.
Proof.
  unfold trimEnd.
  destruct (trimStart_split (reverse s)) as (pre & Heq & Hpre).
  exists (reverse pre). split.
  - rewrite <- reverse_app, <- Heq, reverse_involutive. reflexivity.
  - apply allWhiteSpace_reverse. exact Hpre.
Qed.

Lemma trimEnd_last (s : jsstring) (c : N) :
  last (trimEnd s) = Some c -> isWhiteSpace c = false.
Proof.
  unfold trimEnd. rewrite last_reverse. apply trimStart_head.
Qed.

Lemma trimEnd_head (s : jsstring) (c : N) :
  trimEnd s <> [] -> head (trimEnd s) = Some c -> head s = Some c.
Proof.
  intros Hne Hc. destruct (trimEnd_split s) as (suf & Heq & _).
  rewrite Heq. destruct (trimEnd s); [contradiction | exact Hc].
Qed.

(** [trim] removes exactly the surrounding whitespace. *)
Lemma trim_trimmedOf (s : jsstring) : trimmedOf s (trim s).
Proof.
  unfold trim.
  destruct (trimStart_split s) as (pre & Hpre & Hws).
  destruct (trimEnd_split (trimStart s)) as (suf & Hsuf & Hws').
  exists pre, suf. repeat split; try assumption.
  - rewrite <- Hsuf. exact Hpre.
  - intros c Hc. apply (trimStart_head s).
    apply trimEnd_head; [|exact Hc].
    intros Hnil. rewrite Hnil in Hc. discriminate.
  - apply trimEnd_last.
Qed.

(** [trim] gives the empty string exactly on whitespace-only input. *)
Lemma trim_nil (s : jsstring) : trim s = [] <-> allWhiteSpace s.
Proof.
  unfold trim. split.
  - intros H.
    destruct (trimStart_split s) as (pre & Hpre & Hws).
    destruct (trimEnd_split (trimStart s)) as (suf & Hsuf & Hws').
    rewrite H in Hsuf. simpl in Hsuf.
    rewrite Hpre, Hsuf. apply allWhiteSpace_app. split; assumption.
  - intros H. apply trimStart_nil in H. rewrite H. reflexivity.
Qed.

Lemma truthy_false (s : jsstring) : truthy s = false <-> s = [].
Proof. destruct s; simpl; split; congruence. Qed.

Lemma truthy_true (s : jsstring) : truthy s = true <-> s <> [].
Proof. destruct s; simpl; split; congruence. Qed.

(** [field?.trim() || null] meets the specification's normalisation. *)
Lemma trimOrNull_normalized (input : option jsstring) :
  normalizedField input (trimOrNull input).
Proof.
  destruct input as [s|]; simpl; [|reflexivity].
  split.
  - intros Hws. apply trim_nil in Hws. rewrite Hws. reflexivity.
  - intros Hnws.
    destruct (truthy (trim s)) eqn:Ht.
    + exists (trim s). split; [reflexivity|]. split.
      * apply truthy_true. exact Ht.
      * apply trim_trimmedOf.
    + apply truthy_false in Ht. apply trim_nil in Ht. contradiction.
Qed.

(** ** Credential store *)

Lemma setUserToken_tokens (U T : jsstring) (st : Store) :
  userTokens (setUserToken U T st) = <[U := T]> (userTokens st).
Proof. reflexivity. Qed.

Lemma deleteUserToken_tokens (U : jsstring) (st : Store) :
  userTokens (deleteUserToken U st) = delete U (userTokens st).
Proof. reflexivity. Qed.

Lemma setUserSettings_settings (U : jsstring) (input : Settings) (st : Store) :
  userSettings (setUserSettings U input st)
  = <[U := {| expiry := trimOrNull (expiry input);
              compression := trimOrNull (compression input) |}]>
      (userSettings st).
Proof. reflexivity. Qed.

Lemma getUserSettings_set (U : jsstring) (input : Settings) (st : Store) :
  getUserSettings U (setUserSettings U input st)
  = {| expiry := trimOrNull (expiry input);
       compression := trimOrNull (compression input) |}.
Proof.
  unfold getUserSettings. rewrite setUserSettings_settings.
  rewrite lookup_insert_eq. reflexivity.
Qed.

(** Every mutation leaves the file equal to the object it serialises. *)
Lemma setUserToken_persisted (U T : jsstring) (st : Store) :
  tokensFile (setUserToken U T st) = userTokens (setUserToken U T st).
Proof. reflexivity. Qed.

Lemma deleteUserToken_persisted (U : jsstring) (st : Store) :
  tokensFile (deleteUserToken U st) = userTokens (deleteUserToken U st).
Proof. reflexivity. Qed.

Lemma setUserSettings_persisted (U : jsstring) (input : Settings) (st : Store) :
  settingsFile (setUserSettings U input st)
  = userSettings (setUserSettings U input st).
Proof. reflexivity. Qed.

(** C5, as stated, fails on the empty token: [userTokens[userId] || null]
    turns the stored empty string into [null]. *)
Lemma empty_token_reads_absent :
  getUserToken (js "42") (setUserToken (js "42") (js "") initialStore)
  <> Some (js "").
Proof. vm_compute. discriminate. Qed.

(** C5 (amended): for every user [U] and every token [T],
    [getUserToken U] after [setUserToken U T] returns [T] when [T] is not
    empty, whatever was stored before, and returns absent when [T] is
    empty; after [deleteUserToken U] it returns absent; [setUserToken] is an
    idempotent upsert, for every token: setting [T] over any stored token,
    [T] itself included, leaves the store that setting [T] alone leaves;
    deleting an absent entry completes and leaves a store whose file is up
    to date as it was. *)
Theorem token_get_after_set_and_delete (U T : jsstring) (st : Store) :
  (T <> [] ->
   getUserToken U (setUserToken U T st) = Some T
   /\ forall T0, getUserToken U (setUserToken U T (setUserToken U T0 st))
                 = Some T)
  /\ getUserToken U (setUserToken U [] st) = None
  /\ getUserToken U (deleteUserToken U st) = None
  /\ setUserToken U T (setUserToken U T st) = setUserToken U T st
  /\ (forall T0, setUserToken U T (setUserToken U T0 st) = setUserToken U T st)
  /\ (userTokens st !! U = None ->
      userTokens (deleteUserToken U st) = userTokens st
      /\ (tokensFile st = userTokens st -> deleteUserToken U st = st)).
Proof.
  assert (Hupsert : forall T0,
             setUserToken U T (setUserToken U T0 st) = setUserToken U T st).
  { intros T0. unfold setUserToken, saveTokens. simpl.
    rewrite insert_insert_eq. reflexivity. }
  split.
  { intros HT. apply truthy_true in HT.
    assert (Hget : forall st', getUserToken U (setUserToken U T st') = Some T).
    { intros st'. unfold getUserToken. rewrite setUserToken_tokens.
      rewrite lookup_insert_eq, HT. reflexivity. }
    split; [apply Hget | intros T0; apply Hget]. }
  split.
  { unfold getUserToken. rewrite setUserToken_tokens.
    rewrite lookup_insert_eq. reflexivity. }
  split.
  { unfold getUserToken. rewrite deleteUserToken_tokens.
    rewrite lookup_delete_eq. reflexivity. }
  split; [apply Hupsert|].
  split; [exact Hupsert|].
  intros Habs.
  assert (Hdel : delete U (userTokens st) = userTokens st)
    by (apply delete_id; exact Habs).
  split.
  - rewrite deleteUserToken_tokens. exact Hdel.
  - intros Hfile. destruct st as [tok set tf sf]. simpl in *.
    unfold deleteUserToken, saveTokens. simpl.
    rewrite Hdel, Hfile. reflexivity.
Qed.

Lemma token_get_after_set_and_delete_witness :
  getUserToken (js "42") (setUserToken (js "42") (js "tok") initialStore)
  = Some (js "tok")
  /\ deleteUserToken (js "42") initialStore = initialStore.
Proof.
  assert (Hne : js "tok" <> []) by (vm_compute; discriminate).
  destruct (token_get_after_set_and_delete (js "42") (js "tok") initialStore)
    as (Hget & _ & _ & _ & _ & Hdel).
  split; [exact (proj1 (Hget Hne))|].
  apply Hdel; reflexivity.
Defined.

(** ** Settings store *)

(** C7: for every settings input, [getUserSettings] after [setUserSettings]
    returns the record now stored for the user, each of whose fields is the
    input field normalised: absent stays absent, an empty or whitespace-only
    string is stored as absent, any other string is stored without its
    surrounding whitespace; in particular expiry [" 7d "] with compression
    [""] is stored as expiry ["7d"], compression absent. *)
Theorem settings_set_get_normalizes (U : jsstring) (input : Settings)
    (st : Store) :
  userSettings (setUserSettings U input st) !! U
  = Some (getUserSettings U (setUserSettings U input st))
  /\ normalizedField (expiry input)
       (expiry (getUserSettings U (setUserSettings U input st)))
  /\ normalizedField (compression input)
       (compression (getUserSettings U (setUserSettings U input st)))
  /\ getUserSettings U
       (setUserSettings U
          {| expiry := Some (js " 7d "); compression := Some (js "") |} st)
     = {| expiry := Some (js "7d"); compression := None |}.
Proof.
  rewrite !getUserSettings_set.
  split.
  { rewrite setUserSettings_settings. apply lookup_insert_eq. }
  split; [apply trimOrNull_normalized|].
  split; [apply trimOrNull_normalized|].
  reflexivity.
Qed.

(** C9: for distinct users [U] and [V], setting or deleting the token of
    [U] and setting the settings of [U] leave the token entry and the
    settings entry of [V] as they were, in the objects, in what
    [getUserToken V] and [getUserSettings V] return, and in the two files
    when these were up to date. *)
Theorem mutation_leaves_other_users (U V T : jsstring) (input : Settings)
    (st : Store) :
  U <> V ->
  forall st',
    st' = setUserToken U T st \/ st' = deleteUserToken U st
    \/ st' = setUserSettings U input st ->
    userTokens st' !! V = userTokens st !! V
    /\ userSettings st' !! V = userSettings st !! V
    /\ getUserToken V st' = getUserToken V st
    /\ getUserSettings V st' = getUserSettings V st
    /\ (tokensFile st = userTokens st ->
        tokensFile st' !! V = tokensFile st !! V)
    /\ (settingsFile st = userSettings st ->
        settingsFile st' !! V = settingsFile st !! V).
Proof.
  intros Hne st' Hst'.
  assert (Hfiles : (tokensFile st = userTokens st ->
                    tokensFile st' !! V = tokensFile st !! V)
                   /\ (settingsFile st = userSettings st ->
                       settingsFile st' !! V = settingsFile st !! V)).
  { destruct Hst' as [-> | [-> | ->]]; simpl; split; intros Hsync;
      rewrite ?Hsync, ?lookup_insert_ne, ?lookup_delete_ne by exact Hne;
      reflexivity. }
  assert (Hmaps : userTokens st' !! V = userTokens st !! V
                  /\ userSettings st' !! V = userSettings st !! V).
  { destruct Hst' as [-> | [-> | ->]].
    - rewrite setUserToken_tokens, lookup_insert_ne by exact Hne.
      split; reflexivity.
    - rewrite deleteUserToken_tokens, lookup_delete_ne by exact Hne.
      split; reflexivity.
    - rewrite setUserSettings_settings, lookup_insert_ne by exact Hne.
      split; reflexivity. }
  destruct Hmaps as [Htok Hset]. destruct Hfiles as [Hft Hfs].
  unfold getUserToken, getUserSettings. rewrite Htok, Hset.
  repeat split; assumption.
Qed.

Lemma mutation_leaves_other_users_witness :
  getUserToken (js "7")
    (deleteUserToken (js "42") (setUserToken (js "7") (js "tok") initialStore))
  = Some (js "tok").
Proof.
  assert (Hne : js "42" <> js "7") by (vm_compute; discriminate).
  destruct (mutation_leaves_other_users (js "42") (js "7") (js "x")
              {| expiry := None; compression := None |}
              (setUserToken (js "7") (js "tok") initialStore) Hne
              (deleteUserToken (js "42")
                 (setUserToken (js "7") (js "tok") initialStore)))
    as (_ & _ & Hget & _).
  - right. left. reflexivity.
  - rewrite Hget. vm_compute. reflexivity.
Defined.

(** C10: for a user whose stored record is [prev], whatever its fields,
    [setUserSettings] with only an expiry stores compression as absent, and
    with only a compression stores expiry as absent: the record is
    replaced, not merged.
    The settings command does so for a user whose token is set, an option
    left out being passed as [null]. *)
Theorem settings_set_replaces_record (w : World) (fuel : nat)
    (U token : jsstring) (prev : Settings) (e c : option jsstring)
    (app : App) :
  userSettings (app_store app) !! U = Some prev ->
  getUserToken U (app_store app) = Some token ->
  getUserSettings U (app_store app) = prev
  /\ getUserSettings U
       (setUserSettings U {| expiry := e; compression := None |}
          (app_store app))
     = {| expiry := trimOrNull e; compression := None |}
  /\ getUserSettings U
       (setUserSettings U {| expiry := None; compression := c |}
          (app_store app))
     = {| expiry := None; compression := trimOrNull c |}
  /\ interactionCreate w fuel U (SettingsCmd e None) app
     = Some (withStore app
               (setUserSettings U {| expiry := e; compression := None |}
                  (app_store app)),
             [Reply SettingsSaved])
  /\ interactionCreate w fuel U (SettingsCmd None c) app
     = Some (withStore app
               (setUserSettings U {| expiry := None; compression := c |}
                  (app_store app)),
             [Reply SettingsSaved]).
Proof.
  intros Hprev Htok.
  split; [unfold getUserSettings; rewrite Hprev; reflexivity|].
  rewrite !getUserSettings_set. simpl.
  split; [reflexivity|]. split; [reflexivity|].
  unfold interactionCreate, handleSubcommand. rewrite Htok. simpl.
  split; reflexivity.
Qed.

Lemma settings_set_replaces_record_witness :
  let w := {| apiUser := fun _ => Rejected;
              apiFiles := fun _ _ _ => Rejected;
              apiStats := Rejected;
              attachment := fun _ => DownloadRejected;
              apiUpload := fun _ _ => Rejected;
              baseUrl := js "https://zip.example";
              clock := js "1700000000000";
              formHeaders := [];
              hostStats := mkHostStats (js "Linux") 0 0 0 0 0 1 |} in
  let st := setUserSettings (js "42")
              {| expiry := Some (js "7d"); compression := Some (js "9") |}
              (setUserToken (js "42") (js "tok") initialStore) in
  compression (getUserSettings (js "42") st) = Some (js "9")
  /\ getUserSettings (js "42")
       (setUserSettings (js "42")
          {| expiry := Some (js "1d"); compression := None |} st)
     = {| expiry := Some (js "1d"); compression := None |}.
Proof.
  intros w st. split; [vm_compute; reflexivity|].
  assert (Hprev : userSettings st !! js "42"
                  = Some {| expiry := Some (js "7d");
                            compression := Some (js "9") |})
    by (vm_compute; reflexivity).
  assert (Htok : getUserToken (js "42") st = Some (js "tok"))
    by (vm_compute; reflexivity).
  destruct (settings_set_replaces_record w 0 (js "42") (js "tok") _
              (Some (js "1d")) None (mkApp st ∅ []) Hprev Htok)
    as (_ & Hexp & _).
  exact Hexp.
Defined.

(** ** Pagination session *)

Lemma ceilDiv_isCeiling (n d : Z) : (0 < d)%Z -> isCeiling n d (ceilDiv n d).
Proof.
  intros Hd. unfold isCeiling, ceilDiv.
  pose proof (Z.div_mod (- n) d) as Hdm.
  pose proof (Z.mod_pos_bound (- n) d Hd) as Hb.
  nia.
Qed.

Lemma totalPages_positive (uploads : list UploadRecord) :
  uploads <> [] -> (1 <= totalPages uploads)%Z.
Proof.
  intros Hne. unfold totalPages.
  pose proof (ceilDiv_isCeiling (Z.of_nat (List.length uploads)) pageSize
                eq_refl) as Hc.
  unfold isCeiling, pageSize in *.
  destruct uploads; [contradiction|]. simpl List.length in *. lia.
Qed.

Lemma onCollect_owner (s : Session) (i : NavEvent) :
  s_owner (fst (onCollect s i)) = s_owner s
  /\ s_uploads (fst (onCollect s i)) = s_uploads s.
Proof.
  unfold onCollect. destruct (bool_decide (ev_user i ≠ s_owner s));
    split; reflexivity.
Qed.

(** The page index stays within [0, totalPages - 1]. *)
Lemma onCollect_page_range (s : Session) (i : NavEvent) :
  (0 <= s_page s < totalPages (s_uploads s))%Z ->
  (0 <= s_page (fst (onCollect s i)) < totalPages (s_uploads s))%Z.
Proof.
  intros Hr. unfold onCollect.
  destruct (bool_decide (ev_user i ≠ s_owner s)); [exact Hr|].
  simpl.
  destruct (bool_decide (ev_customId i = js "prev")); simpl;
    destruct (0 <? s_page s)%Z eqn:H0; simpl;
    destruct (bool_decide (ev_customId i = js "next")); simpl;
    repeat match goal with
           | |- context [(?a <? ?b)%Z] => destruct (Z.ltb_spec a b); simpl
           end;
    try apply Z.ltb_lt in H0; try apply Z.ltb_ge in H0; lia.
Qed.

Lemma prev_is_not_next : js "prev" <> js "next".
Proof. vm_compute. discriminate. Qed.

(** A press by the owner moves the page index as the specification's
    transitions say. *)
Lemma onCollect_owner_page (s : Session) (i : NavEvent) :
  ev_user i = s_owner s ->
  s_page (fst (onCollect s i))
  = navigated (ev_customId i) (s_page s) (totalPages (s_uploads s)).
Proof.
  intros Hown. unfold onCollect, navigated.
  rewrite bool_decide_eq_false_2 by (intros Hne; apply Hne; exact Hown).
  simpl.
  pose proof prev_is_not_next as Hpn.
  repeat case_bool_decide; simpl;
    repeat match goal with
           | |- context [(?a <? ?b)%Z] => destruct (Z.ltb_spec a b); simpl
           end;
    try reflexivity; try lia; congruence.
Qed.

Lemma onCollect_other_page (s : Session) (i : NavEvent) :
  ev_user i <> s_owner s -> onCollect s i = (s, [NavReply OnlyYouCanNavigate]).
Proof.
  intros Hne. unfold onCollect.
  rewrite bool_decide_eq_true_2 by exact Hne. reflexivity.
Qed.

(** C3: for a non-empty list of [N] uploads the page count is the ceiling
    of [N / 5]; a session starts on page 0; pressing "next" on the last
    page and pressing "prev" on page 0 leave the page index as it is,
    whoever presses. *)
Theorem pagination_pages_and_edges (uploads : list UploadRecord)
    (owner : jsstring) :
  uploads <> [] ->
  isCeiling (Z.of_nat (List.length uploads)) 5 (totalPages uploads)
  /\ s_page (c_session (fst (paginateUploads owner uploads))) = 0%Z
  /\ forall (s : Session) (who : jsstring),
       s_uploads s = uploads ->
       (s_page s = (totalPages uploads - 1)%Z ->
        s_page (fst (onCollect s (mkNavEvent who (js "next")))) = s_page s)
       /\ (s_page s = 0%Z ->
           s_page (fst (onCollect s (mkNavEvent who (js "prev")))) = s_page s).
Proof.
  intros Hne.
  split; [apply (ceilDiv_isCeiling _ pageSize); reflexivity|].
  split; [reflexivity|].
  intros s who Hup.
  destruct (decide (who = s_owner s)) as [Hown|Hoth].
  - rewrite !onCollect_owner_page by exact Hown.
    rewrite Hup. unfold navigated. simpl ev_customId.
    pose proof prev_is_not_next as Hpn.
    split; intros Hp; repeat case_bool_decide; try reflexivity;
      try lia; congruence.
  - rewrite !onCollect_other_page by exact Hoth. split; reflexivity.
Qed.

Lemma pagination_pages_and_edges_witness :
  totalPages twelve = 3%Z
  /\ s_page (fst (onCollect (mkSession alice twelve 2)
                    (mkNavEvent alice (js "next")))) = 2%Z
  /\ s_page (fst (onCollect (mkSession alice twelve 0)
                    (mkNavEvent alice (js "prev")))) = 0%Z.
Proof.
  assert (Hne : twelve <> []) by (vm_compute; discriminate).
  destruct (pagination_pages_and_edges twelve alice Hne) as (Hceil & _ & Hnav).
  split; [vm_compute; reflexivity|].
  split.
  - apply (Hnav (mkSession alice twelve 2) alice); reflexivity.
  - apply (Hnav (mkSession alice twelve 0) alice); reflexivity.
Defined.

(** Twelve uploads: page 0 shows items 0 to 4, and after "next" twice a
    third "next" stays on index 2. *)
Example twelve_uploads_walk :
  let next := mkNavEvent alice (js "next") in
  let s0 := c_session (fst (paginateUploads alice twelve)) in
  let s1 := fst (onCollect s0 next) in
  let s2 := fst (onCollect s1 next) in
  let s3 := fst (onCollect s2 next) in
  em_items (createEmbed s0) = upload <$> [0; 1; 2; 3; 4]%N
  /\ (s_page s1, s_page s2, s_page s3) = (1, 2, 2)%Z
  /\ em_items (createEmbed s3) = upload <$> [10; 11]%N.
Proof. vm_compute. repeat split. Qed.

(** C4: a press by anyone but the owner is answered with the notice shown
    to the presser only, and the session, its page index included, stays as
    it is; the collector holding the session is unchanged as well. *)
Theorem non_owner_press_rejected (c : Collector) (i : NavEvent) :
  ev_user i <> s_owner (c_session c) ->
  onCollect (c_session c) i = (c_session c, [NavReply OnlyYouCanNavigate])
  /\ s_page (fst (onCollect (c_session c) i)) = s_page (c_session c)
  /\ fst (collectorStep c (Pressed i)) = c
  /\ (c_ended c = false ->
      snd (collectorStep c (Pressed i)) = [NavReply OnlyYouCanNavigate]).
Proof.
  intros Hne. pose proof (onCollect_other_page _ _ Hne) as Hrej.
  rewrite Hrej. split; [reflexivity|]. split; [reflexivity|].
  unfold collectorStep. rewrite Hrej.
  destruct c as [s []]; simpl; repeat split; congruence.
Qed.

Lemma non_owner_press_rejected_witness :
  collectorStep (mkCollector (mkSession alice twelve 1) false)
    (Pressed (mkNavEvent bob (js "next")))
  = (mkCollector (mkSession alice twelve 1) false,
     [NavReply OnlyYouCanNavigate]).
Proof.
  assert (Hne : ev_user (mkNavEvent bob (js "next"))
                <> s_owner (c_session
                              (mkCollector (mkSession alice twelve 1) false)))
    by (vm_compute; discriminate).
  destruct (non_owner_press_rejected _ _ Hne) as (_ & _ & Hc & Hout).
  rewrite (surjective_pairing (collectorStep _ _)).
  rewrite Hc, Hout; reflexivity.
Defined.

(** ** The collector *)

Lemma collectorRun_cons (c : Collector) (x : CollectorInput)
    (xs : list CollectorInput) :
  collectorRun c (x :: xs)
  = (fst (collectorRun (fst (collectorStep c x)) xs),
     snd (collectorStep c x) ++ snd (collectorRun (fst (collectorStep c x)) xs)).
Proof.
  simpl. destruct (collectorStep c x) as [c1 out1]. simpl.
  destruct (collectorRun c1 xs) as [c2 out2]. reflexivity.
Qed.

Lemma collectorRun_ended (c : Collector) (xs : list CollectorInput) :
  c_ended c = true -> collectorRun c xs = (c, []).
Proof.
  intros Hend. induction xs as [|x xs IH]; [reflexivity|].
  rewrite collectorRun_cons. unfold collectorStep. rewrite Hend. simpl.
  rewrite IH. reflexivity.
Qed.

Lemma collectorRun_app (c : Collector) (xs ys : list CollectorInput) :
  collectorRun c (xs ++ ys)
  = (fst (collectorRun (fst (collectorRun c xs)) ys),
     snd (collectorRun c xs) ++ snd (collectorRun (fst (collectorRun c xs)) ys)).
Proof.
  revert c. induction xs as [|x xs IH]; intros c.
  - simpl. destruct (collectorRun c ys); reflexivity.
  - rewrite <- app_comm_cons, !collectorRun_cons, IH. simpl.
    rewrite app_assoc. reflexivity.
Qed.

Lemma onCollect_no_final_edit (s : Session) (i : NavEvent) :
  Forall (fun e => ~ isFinalEdit e) (snd (onCollect s i)).
Proof.
  unfold onCollect. destruct (bool_decide (ev_user i ≠ s_owner s)); simpl;
    repeat constructor; unfold isFinalEdit; discriminate.
Qed.

Lemma collectorStep_press (c : Collector) (i : NavEvent) :
  c_ended c = false ->
  c_ended (fst (collectorStep c (Pressed i))) = false
  /\ Forall (fun e => ~ isFinalEdit e) (snd (collectorStep c (Pressed i))).
Proof.
  intros Hc. unfold collectorStep. rewrite Hc.
  pose proof (onCollect_no_final_edit (c_session c) i) as Hout.
  destruct (onCollect (c_session c) i) as [s' out].
  split; [reflexivity | exact Hout].
Qed.

(** Presses alone never end a collector and never make it edit the
    message. *)
Lemma collectorRun_presses (c : Collector) (evs : list NavEvent) :
  c_ended c = false ->
  c_ended (fst (collectorRun c (Pressed <$> evs))) = false
  /\ Forall (fun e => ~ isFinalEdit e)
       (snd (collectorRun c (Pressed <$> evs))).
Proof.
  revert c. induction evs as [|i evs IH]; intros c Hc.
  - split; [exact Hc | constructor].
  - rewrite fmap_cons, collectorRun_cons. simpl.
    destruct (collectorStep_press c i Hc) as [H1 H2].
    destruct (IH _ H1) as [IH1 IH2].
    split; [exact IH1|]. apply Forall_app. split; assumption.
Qed.

Lemma collectorStep_foreign_press (c : Collector) (i : NavEvent) :
  ev_user i <> s_owner (c_session c) ->
  fst (collectorStep c (Pressed i)) = c.
Proof.
  intros Hne. unfold collectorStep.
  rewrite (onCollect_other_page _ _ Hne).
  destruct c as [s []]; reflexivity.
Qed.

(** Presses by others than the owner leave the session as it is. *)
Lemma collectorRun_foreign_presses (c : Collector) (evs : list NavEvent) :
  Forall (fun i => ev_user i <> s_owner (c_session c)) evs ->
  fst (collectorRun c (Pressed <$> evs)) = c.
Proof.
  induction 1 as [|i evs Hi Hevs IH]; [reflexivity|].
  rewrite fmap_cons, collectorRun_cons. simpl.
  rewrite (collectorStep_foreign_press c i Hi). exact IH.
Qed.

(** Whatever a collector is fed, the page index of its session stays within
    [0, totalPages - 1] and the session keeps its owner and its uploads. *)
Lemma collectorRun_page_range (c : Collector) (xs : list CollectorInput) :
  (0 <= s_page (c_session c) < totalPages (s_uploads (c_session c)))%Z ->
  let s' := c_session (fst (collectorRun c xs)) in
  (0 <= s_page s' < totalPages (s_uploads s'))%Z
  /\ s_owner s' = s_owner (c_session c)
  /\ s_uploads s' = s_uploads (c_session c).
Proof.
  revert c. induction xs as [|x xs IH]; intros c Hr; [simpl; auto|].
  rewrite collectorRun_cons. cbn [fst].
  assert (Hstep : (0 <= s_page (c_session (fst (collectorStep c x)))
                   < totalPages (s_uploads (c_session c)))%Z
                  /\ s_owner (c_session (fst (collectorStep c x)))
                     = s_owner (c_session c)
                  /\ s_uploads (c_session (fst (collectorStep c x)))
                     = s_uploads (c_session c)).
  { unfold collectorStep. destruct (c_ended c); [simpl; auto|].
    destruct x as [i|]; [|simpl; auto].
    pose proof (onCollect_page_range _ i Hr) as Hp.
    pose proof (onCollect_owner (c_session c) i) as [Ho Hu].
    destruct (onCollect (c_session c) i) as [s1 out1]. simpl in *. auto. }
  destruct Hstep as (Hp & Ho & Hu).
  rewrite <- Hu in Hp. specialize (IH _ Hp). cbn zeta in IH.
  destruct IH as (IHp & IHo & IHu).
  cbn zeta. rewrite IHo, IHu, Ho, Hu. rewrite IHu, Hu in IHp. auto.
Qed.

(** The presses that come before the timer runs out. *)
Lemma timeline_split (presses : list (Z * NavEvent)) :
  exists early late,
    presses = early ++ late
    /\ Forall (fun p => (p.1 < collectorTime)%Z) early
    /\ timeline true presses
       = (Pressed <$> early.*2) ++ TimeElapsed :: (Pressed <$> late.*2).
Proof.
  assert (Hoff : forall l, timeline false l = Pressed <$> l.*2).
  { induction l as [|[t i] l IH]; simpl; [reflexivity|].
    rewrite IH. reflexivity. }
  induction presses as [|[t i] presses IH]; simpl.
  - exists [], []. repeat split. constructor.
  - destruct (Z.leb_spec collectorTime t) as [Hlate|Hearly].
    + exists [], ((t, i) :: presses). simpl. rewrite Hoff.
      repeat split. constructor.
    + destruct IH as (early & late & Heq & Hall & Htl).
      exists ((t, i) :: early), late. simpl.
      rewrite Htl. split; [congruence|].
      split; [constructor; assumption | reflexivity].
Qed.

(** C6: a collector watched until its 60000 ms have run out ends exactly
    once: its output is what the presses before the deadline produced,
    none of it the edit that strips the buttons, followed by that edit
    alone; once ended it processes nothing and sends nothing further; and
    if no press before the deadline was by the owner, the session it ends
    with is the one it started with. *)
Theorem collector_expires_once (owner : jsstring)
    (uploads : list UploadRecord) (presses : list (Z * NavEvent)) :
  exists (c : Collector) (before : list Effect),
    collectorRun (fst (paginateUploads owner uploads)) (timeline true presses)
    = (c, before ++ [MessageEdit []])
    /\ c_ended c = true
    /\ Forall (fun e => ~ isFinalEdit e) before
    /\ (forall xs, collectorRun c xs = (c, []))
    /\ (Forall (fun p => (p.1 < collectorTime)%Z -> ev_user p.2 <> owner)
          presses ->
        c_session c = c_session (fst (paginateUploads owner uploads))).
Proof.
  set (c0 := fst (paginateUploads owner uploads)).
  assert (Hc0 : c_ended c0 = false) by reflexivity.
  destruct (timeline_split presses) as (early & late & Heq & Hall & Htl).
  destruct (collectorRun_presses c0 early.*2 Hc0) as [Hlive Hquiet].
  set (c1 := fst (collectorRun c0 (Pressed <$> early.*2))) in *.
  exists {| c_session := c_session c1; c_ended := true |},
         (snd (collectorRun c0 (Pressed <$> early.*2))).
  assert (Hstep : collectorStep c1 TimeElapsed
                  = ({| c_session := c_session c1; c_ended := true |}, onEnd)).
  { unfold collectorStep. rewrite Hlive. reflexivity. }
  split.
  { rewrite Htl, collectorRun_app, collectorRun_cons. fold c1.
    rewrite Hstep. simpl fst. simpl snd.
    rewrite collectorRun_ended by reflexivity. reflexivity. }
  split; [reflexivity|].
  split; [exact Hquiet|].
  split; [intros xs; apply collectorRun_ended; reflexivity|].
  intros Hforeign. simpl.
  assert (Hearly : Forall (fun i => ev_user i <> s_owner (c_session c0))
                     early.*2).
  { rewrite Heq in Hforeign. apply Forall_app in Hforeign as [Hf _].
    apply Forall_fmap. apply Forall_forall. intros p Hp. simpl.
    rewrite Forall_forall in Hf, Hall.
    apply Hf; [exact Hp | apply Hall; exact Hp]. }
  unfold c1. rewrite (collectorRun_foreign_presses c0 _ Hearly). reflexivity.
Qed.

Lemma collector_expires_once_witness :
  exists c,
    collectorRun (fst (paginateUploads alice twelve))
      (timeline true
         [(1000%Z, mkNavEvent bob (js "next"));
          (61000%Z, mkNavEvent alice (js "next"))])
    = (c, [NavReply OnlyYouCanNavigate; MessageEdit []])
    /\ c_ended c = true /\ s_page (c_session c) = 0%Z.
Proof.
  destruct (collector_expires_once alice twelve
              [(1000%Z, mkNavEvent bob (js "next"));
               (61000%Z, mkNavEvent alice (js "next"))])
    as (c & before & Hrun & Hend & _ & _ & Hsame).
  assert (Hval : collectorRun (fst (paginateUploads alice twelve))
                   (timeline true
                      [(1000%Z, mkNavEvent bob (js "next"));
                       (61000%Z, mkNavEvent alice (js "next"))])
                 = (mkCollector (mkSession alice twelve 0) true,
                    [NavReply OnlyYouCanNavigate; MessageEdit []]))
    by (vm_compute; reflexivity).
  exists c. split.
  - rewrite Hval in Hrun. injection Hrun as Hc _.
    rewrite Hval, Hc. reflexivity.
  - split; [exact Hend|]. rewrite Hsame; [reflexivity|].
    repeat constructor; simpl; unfold collectorTime;
      first [lia | intros _; vm_compute; discriminate].
Defined.

(** The deadline counts from the creation of the collector: a press the
    owner makes before it does not postpone it, and a press after it is
    not processed. *)
Example deadline_is_not_postponed :
  collectorRun (fst (paginateUploads alice twelve))
    (timeline true
       [(59000%Z, mkNavEvent alice (js "next"));
        (61000%Z, mkNavEvent alice (js "next"))])
  = (mkCollector (mkSession alice twelve 1) true,
     [NavUpdate (mkEmbed 2 3 (upload <$> [5; 6; 7; 8; 9]%N))
        (mkControls false false);
      MessageEdit []]).
Proof. vm_compute. reflexivity. Qed.

(** ** Fetch all uploads *)

Lemma fetchAllLoop_empty_page (w : World) (token : jsstring) (fuel : nat)
    (page : Z) (acc : list UploadRecord) :
  emptyPage w token page ->
  fetchAllLoop w token (S fuel) page acc = Some (Ok acc).
Proof.
  intros (resp & Hresp & Hempty). simpl. rewrite Hresp.
  destruct Hempty as [-> | ->]; reflexivity.
Qed.

(** The loop stops at the latest on the first empty page, and what it
    returns is what it had plus the pages fetched since, in order. *)
Lemma fetchAllLoop_backstop (w : World) (token : jsstring) (d : nat) :
  forall (fuel : nat) (page : Z) (acc : list UploadRecord),
    emptyPage w token (page + Z.of_nat d) ->
    d < fuel ->
    exists r,
      fetchAllLoop w token fuel page acc = Some r
      /\ forall items, r = Ok items ->
           exists j, j <= d /\ items = acc ++ pagesFrom w token page j.
Proof.
  induction d as [|d IH]; intros fuel page acc Hempty Hfuel;
    (destruct fuel as [|fuel]; [lia|]).
  - replace (page + Z.of_nat 0)%Z with page in Hempty by lia.
    rewrite (fetchAllLoop_empty_page _ _ _ _ _ Hempty).
    eexists. split; [reflexivity|]. intros items [= <-].
    exists 0. split; [lia|]. simpl. rewrite app_nil_r. reflexivity.
  - simpl fetchAllLoop.
    destruct (ziplineFetchUserUploads w token page 50) as [resp|e] eqn:Hresp.
    2:{ eexists. split; [reflexivity|]. discriminate. }
    destruct (resp_page resp) as [[|x items]|] eqn:Hpage.
    + eexists. split; [reflexivity|]. intros ? [= <-].
      exists 0. split; [lia|]. simpl. rewrite app_nil_r. reflexivity.
    + assert (Hitems : pageItems w token page = x :: items).
      { unfold pageItems. rewrite Hresp, Hpage. reflexivity. }
      destruct (reachedPages page (resp_pages resp)).
      * eexists. split; [reflexivity|]. intros ? [= <-].
        exists 1. split; [lia|]. simpl. rewrite Hitems, app_nil_r.
        reflexivity.
      * destruct (IH fuel (page + 1)%Z (acc ++ x :: items)) as (r & Hr & Hord).
        { replace (page + 1 + Z.of_nat d)%Z with (page + Z.of_nat (S d))%Z
            by lia. exact Hempty. }
        { lia. }
        exists r. split; [exact Hr|]. intros res Hres.
        destruct (Hord res Hres) as (j & Hj & ->).
        exists (S j). split; [lia|]. simpl. rewrite Hitems, <- app_assoc.
        reflexivity.
    + eexists. split; [reflexivity|]. intros ? [= <-].
      exists 0. split; [lia|]. simpl. rewrite app_nil_r. reflexivity.
Qed.

(** On a consistent remote, with [k] pages behind and [rest] ahead. *)
Lemma fetchAllLoop_consistent (w : World) (token : jsstring)
    (ps : list (list UploadRecord)) :
  servesPages w token ps ->
  forall (rest : list (list UploadRecord)) (k fuel : nat)
         (acc : list UploadRecord),
    drop k ps = rest -> rest <> [] -> List.length rest <= fuel ->
    fetchAllLoop w token fuel (Z.of_nat k + 1) acc
    = Some (Ok (acc ++ List.concat (pagesUntilEmpty rest))).
Proof.
  intros Hserve. induction rest as [|p rest IH];
    intros k fuel acc Hdrop Hne Hfuel; [contradiction|].
  destruct fuel as [|fuel]; [simpl in Hfuel; lia|].
  assert (Hk : ps !! k = Some p).
  { rewrite <- (Nat.add_0_r k), <- lookup_drop, Hdrop. reflexivity. }
  assert (Hlen : List.length ps = k + S (List.length rest)).
  { rewrite <- (take_drop k ps) at 1. rewrite Hdrop, length_app.
    rewrite length_take_le; [reflexivity|].
    apply Nat.lt_le_incl, (lookup_lt_Some _ _ _ Hk). }
  simpl fetchAllLoop. rewrite (Hserve k p Hk). simpl resp_page.
  destruct p as [|x p].
  { simpl. rewrite app_nil_r. reflexivity. }
  simpl resp_pages. unfold reachedPages.
  destruct rest as [|q rest].
  - rewrite (proj2 (Z.leb_le _ _)) by (simpl in Hlen; lia).
    simpl. rewrite app_nil_r. reflexivity.
  - rewrite (proj2 (Z.leb_gt _ _)) by (simpl in Hlen; lia).
    replace (Z.of_nat k + 1 + 1)%Z with (Z.of_nat (S k) + 1)%Z by lia.
    rewrite (IH (S k) fuel (acc ++ x :: p)).
    + simpl pagesUntilEmpty at 2. cbn [List.concat]. rewrite <- app_assoc.
      reflexivity.
    + replace (S k) with (k + 1) by lia.
      rewrite <- drop_drop, Hdrop. reflexivity.
    + discriminate.
    + simpl in Hfuel |- *. lia.
Qed.

Lemma pagesUntilEmpty_all (ps : list (list UploadRecord)) :
  Forall (fun p => p <> []) ps -> pagesUntilEmpty ps = ps.
Proof.
  induction 1 as [|p ps Hp Hps IH]; [reflexivity|].
  destruct p; [contradiction|]. simpl. rewrite IH. reflexivity.
Qed.

Lemma remoteOf_serves (token : jsstring) (ps : list (list UploadRecord)) :
  servesPages (remoteOf ps) token ps.
Proof.
  intros k items Hk. unfold ziplineFetchUserUploads. simpl.
  replace (Z.to_nat (Z.of_nat k + 1 - 1)) with k by lia.
  rewrite Hk. reflexivity.
Qed.

(** C2: on a remote holding a finite, consistent, non-empty sequence of
    pages the listing loop returns, for any fuel from the number of pages
    on, the concatenation in page order of the pages up to the first empty
    one, which is all of them when none is empty, whatever the remote would
    answer past its last page; and on any remote, whatever page counts it
    reports, if its page [k + 1] is empty the loop returns or throws within
    [k + 1] iterations, a returned list being the first [j] pages in order
    for some [j <= k]. *)
Theorem fetchAll_terminates_in_page_order (w : World) (token : jsstring) :
  (forall ps, ps <> [] -> servesPages w token ps ->
     forall fuel, List.length ps <= fuel ->
       ziplineFetchAllUserUploads w token fuel
       = Some (Ok (List.concat (pagesUntilEmpty ps)))
       /\ (Forall (fun p => p <> []) ps ->
           ziplineFetchAllUserUploads w token fuel
           = Some (Ok (List.concat ps))))
  /\ (forall k, emptyPage w token (Z.of_nat k + 1) ->
        forall fuel, k < fuel ->
          exists r,
            ziplineFetchAllUserUploads w token fuel = Some r
            /\ forall items, r = Ok items ->
                 exists j, j <= k /\ items = pagesFrom w token 1 j).
Proof.
  split.
  - intros ps Hne Hserve fuel Hfuel.
    assert (Hrun : ziplineFetchAllUserUploads w token fuel
                   = Some (Ok (List.concat (pagesUntilEmpty ps)))).
    { unfold ziplineFetchAllUserUploads.
      apply (fetchAllLoop_consistent w token ps Hserve ps 0 fuel []);
        [reflexivity | exact Hne | exact Hfuel]. }
    split; [exact Hrun|].
    intros Hall. rewrite Hrun, (pagesUntilEmpty_all ps Hall). reflexivity.
  - intros k Hempty fuel Hfuel. unfold ziplineFetchAllUserUploads.
    replace (Z.of_nat k + 1)%Z with (1 + Z.of_nat k)%Z in Hempty by lia.
    destruct (fetchAllLoop_backstop w token k fuel 1%Z [] Hempty Hfuel)
      as (r & Hr & Hord).
    exists r. split; [exact Hr|]. exact Hord.
Qed.

Lemma fetchAll_terminates_in_page_order_witness :
  ziplineFetchAllUserUploads
    (remoteOf [[upload 1; upload 2]; [upload 3]]) alice 2
  = Some (Ok [upload 1; upload 2; upload 3])
  /\ exists r, ziplineFetchAllUserUploads misreporting alice 3 = Some r.
Proof.
  split.
  - destruct (fetchAll_terminates_in_page_order
                (remoteOf [[upload 1; upload 2]; [upload 3]]) alice)
      as [Hcons _].
    destruct (Hcons [[upload 1; upload 2]; [upload 3]]
                ltac:(discriminate) (remoteOf_serves alice _) 2) as [_ Hall].
    + simpl. lia.
    + apply Hall. repeat constructor; discriminate.
  - destruct (fetchAll_terminates_in_page_order misreporting alice)
      as [_ Hback].
    destruct (Hback 2) with (fuel := 3) as (r & Hr & _).
    + eexists. split; [vm_compute; reflexivity | right; reflexivity].
    + lia.
    + exists r. exact Hr.
Defined.

(** The consistent half rests on the test [page >= resp.pages]: a remote
    that answers 404 past its last page is never asked for that page, and a
    loop without the test would throw there. *)
Example consistent_remote_past_the_end :
  ziplineFetchUserUploads (remoteOf [[upload 1; upload 2]; [upload 3]])
    alice 3 50
  = Throw (FilesApiError 404 (js "Not Found"))
  /\ ziplineFetchAllUserUploads
       (remoteOf [[upload 1; upload 2]; [upload 3]]) alice 7
     = Some (Ok [upload 1; upload 2; upload 3]).
Proof. vm_compute. split; reflexivity. Qed.

(** A user without uploads: one page, empty. *)
Example no_uploads_fetch :
  ziplineFetchAllUserUploads (remoteOf [[]]) alice 1 = Some (Ok []).
Proof. reflexivity. Qed.

Example misreporting_fetch :
  ziplineFetchAllUserUploads misreporting alice 3
  = Some (Ok [upload 1; upload 2]).
Proof. vm_compute. reflexivity. Qed.

(** Without an empty page and without a page count that is reached, no
    number of iterations is enough. *)
Lemma endless_never_returns (fuel : nat) (page : Z)
    (acc : list UploadRecord) :
  fetchAllLoop endless alice fuel page acc = None.
Proof.
  revert page acc. induction fuel as [|fuel IH]; intros page acc;
    [reflexivity|].
  simpl. apply IH.
Qed.

(** ** Upload file *)

Section Upload.
Variables (w : World) (st : Store) (now : jsstring)
          (headers : list (jsstring * jsstring))
          (token url filename userId : jsstring) (fs : FileSystem).

Local Abbreviation tmp := (tmpPath now filename).
Local Abbreviation outcome :=
  (ziplineUploadFromUrl w st now headers token url filename userId fs).

(** A download that is refused or rejected throws before the staging
    file is created. *)
Lemma upload_download_refused :
  attachment w url = DownloadRejected
  \/ (exists body, attachment w url = DownloadResponse false body) ->
  (fst outcome = Throw FetchRejected \/ fst outcome = Throw DownloadFailed)
  /\ snd outcome = fs.
Proof.
  unfold ziplineUploadFromUrl.
  intros [-> | (body & ->)]; simpl; split; auto.
Qed.

(** Once the upload request has been answered, whatever the answer, the
    staging file is gone: a non-success status throws after the removal. *)
Lemma upload_answered_removes_staging_file
    (bytes : list N) (ok : bool) (status : Z) (text : jsstring)
    (json : option UploadJson) :
  fs !! tmp = None ->
  attachment w url = DownloadResponse true (StreamEnds bytes) ->
  apiUpload w (uploadHeaders token headers (getUserSettings userId st)) bytes
  = Response ok status text json ->
  snd outcome = fs
  /\ fst outcome = (if ok then resJson json
                    else Throw (UploadApiError status)).
Proof.
  intros Hfresh Hdl Hup. unfold ziplineUploadFromUrl.
  rewrite Hdl. simpl. rewrite Hup. unfold unlinkSync.
  rewrite lookup_insert_eq, delete_insert_id by exact Hfresh.
  destruct ok; split; reflexivity.
Qed.

(** A body stream that breaks leaves what it had written on disk. *)
Lemma upload_stream_error_keeps_staging_file (written : list N) :
  attachment w url = DownloadResponse true (StreamErrors written) ->
  fst outcome = Throw BodyStreamError /\ snd outcome !! tmp = Some written.
Proof.
  intros Hdl. unfold ziplineUploadFromUrl. rewrite Hdl. simpl.
  split; [reflexivity | apply lookup_insert_eq].
Qed.

(** So does an upload request that is rejected rather than answered. *)
Lemma upload_rejected_keeps_staging_file (bytes : list N) :
  attachment w url = DownloadResponse true (StreamEnds bytes) ->
  apiUpload w (uploadHeaders token headers (getUserSettings userId st)) bytes
  = Rejected ->
  fst outcome = Throw FetchRejected /\ snd outcome !! tmp = Some bytes.
Proof.
  intros Hdl Hup. unfold ziplineUploadFromUrl.
  rewrite Hdl. simpl. rewrite Hup.
  split; [reflexivity | apply lookup_insert_eq].
Qed.
End Upload.

(** C1: the code at an input on which the claim fails.  The download is
    answered with a success status and its body stream breaks after three
    bytes: the call throws, and the staging file, absent before the call, is
    on disk afterwards holding those bytes. *)
Theorem staging_file_left_after_stream_error :
  let tmp := tmpPath (clock brokenDownload) (js "cat.png") in
  let outcome :=
    ziplineUploadFromUrl brokenDownload initialStore (clock brokenDownload)
      (formHeaders brokenDownload) (js "tok")
      (js "https://cdn.example/cat.png") (js "cat.png") alice ∅ in
  (∅ : FileSystem) !! tmp = None
  /\ fst outcome = Throw BodyStreamError
  /\ snd outcome !! tmp = Some [137; 80; 78]%N.
Proof. vm_compute. repeat split. Qed.

(** ** The stats command *)

Lemma zipSection_unavailable :
  zipSection statsUnavailable = ZipErrorLine (js "Unavailable").
Proof. reflexivity. Qed.

(** C8: when [ziplineGetStats] throws, for a user whose token is set, the
    [try] block of the handler completes without throwing, the [catch] of
    the handler does nothing, and the one text sent carries the host part,
    the user part, and the service part as the line "Unavailable". *)
Theorem stats_failure_recovered (w : World) (fuel : nat)
    (U token : jsstring) (app : App) (e : Error) :
  getUserToken U (app_store app) = Some token ->
  ziplineGetStats w = Throw e ->
  exists me : MeSection,
    handleSubcommand w fuel U StatsCmd app
    = Some (mkRun app
              [DeferReply;
               EditReply (StatsText (hostStats w)
                            (ZipErrorLine (js "Unavailable")) me)]
              (Ok ()))
    /\ interactionCreate w fuel U StatsCmd app
       = Some (app,
               [DeferReply;
                EditReply (StatsText (hostStats w)
                             (ZipErrorLine (js "Unavailable")) me)]).
Proof.
  intros Htok Hstats.
  exists (meSection match ziplineGetMe w token with
                    | Ok m => m
                    | Throw _ => meUnknown
                    end).
  unfold interactionCreate, handleSubcommand, statsCommand.
  rewrite Htok, Hstats. simpl. split; reflexivity.
Qed.

Lemma stats_failure_recovered_witness :
  interactionCreate brokenDownload 0 alice StatsCmd
    (mkApp (setUserToken alice (js "tok") initialStore) ∅ [])
  = Some (mkApp (setUserToken alice (js "tok") initialStore) ∅ [],
          [DeferReply;
           EditReply (StatsText (hostStats brokenDownload)
                        (ZipErrorLine (js "Unavailable"))
                        (mkMeSection (Some (js "Unknown")) 0 None))]).
Proof.
  assert (Htok : getUserToken alice
                   (app_store
                      (mkApp (setUserToken alice (js "tok") initialStore) ∅ []))
                 = Some (js "tok")) by (vm_compute; reflexivity).
  assert (Hstats : ziplineGetStats brokenDownload = Throw FetchRejected)
    by reflexivity.
  destruct (stats_failure_recovered brokenDownload 0 alice (js "tok") _ _
              Htok Hstats) as (me & Hrun & Hhandler).
  rewrite Hhandler. unfold handleSubcommand in Hrun. rewrite Htok in Hrun.
  injection Hrun as Hme. rewrite <- Hme. reflexivity.
Defined.

(** By contrast, the failure of the profile request in the me command
    reaches the [catch] of the handler. *)
Lemma me_failure_reaches_boundary (w : World) (fuel : nat)
    (U token : jsstring) (app : App) (e : Error) :
  getUserToken U (app_store app) = Some token ->
  ziplineGetMe w token = Throw e ->
  interactionCreate w fuel U MeCmd app
  = Some (app,
          [DeferReply; LogError e (js "InteractionHandler");
           EditReply ErrorOccurred]).
Proof.
  intros Htok Hme. unfold interactionCreate, handleSubcommand.
  rewrite Htok, Hme. reflexivity.
Qed.

(* ===================================================================== *)
(** * Part III. Further properties of the code                            *)
(* ===================================================================== *)

(** ** The stores under the commands *)

Lemma trim_fixed (t : jsstring) : noWhiteSpaceAtEnds t -> trim t = t.
Proof.
  intros [Hhead Hlast].
  assert (Hstart : forall u : jsstring,
             (forall c, head u = Some c -> isWhiteSpace c = false) ->
             trimStart u = u).
  { intros [|c u] Hu; [reflexivity|]. simpl.
    rewrite (Hu c eq_refl). reflexivity. }
  unfold trim, trimEnd. rewrite (Hstart t Hhead).
  rewrite Hstart; [apply reverse_involutive|].
  intros c Hc. rewrite head_reverse in Hc. apply Hlast. exact Hc.
Qed.

Lemma trim_idempotent (s : jsstring) : trim (trim s) = trim s.
Proof.
  apply trim_fixed. destruct (trim_trimmedOf s) as (_ & _ & _ & _ & _ & H).
  exact H.
Qed.

Lemma trimOrNull_idempotent (field : option jsstring) :
  trimOrNull (trimOrNull field) = trimOrNull field.
Proof.
  destruct field as [s|]; [|reflexivity]. simpl.
  destruct (truthy (trim s)) eqn:Ht; [|reflexivity].
  simpl. rewrite trim_idempotent, Ht. reflexivity.
Qed.

(** X1: what [getUserSettings] returns after a [setUserSettings] is in
    normal form: saving it again for the same user changes nothing, neither
    in the objects nor in the files. *)
Theorem settings_resave_is_identity (U : jsstring) (input : Settings)
    (st : Store) :
  setUserSettings U
    (getUserSettings U (setUserSettings U input st))
    (setUserSettings U input st)
  = setUserSettings U input st.
Proof.
  rewrite getUserSettings_set.
  unfold setUserSettings, saveSettings. simpl.
  rewrite !trimOrNull_idempotent, insert_insert_eq. reflexivity.
Qed.

(** The store a command leaves is the one it found or the result of the
    one mutation the command stands for. *)
Lemma handleSubcommand_store (w : World) (fuel : nat) (U : jsstring)
    (sub : Subcommand) (app : App) (run : Run) :
  handleSubcommand w fuel U sub app = Some run ->
  app_store (run_app run) = app_store app
  \/ (exists T, sub = SetTokenCmd T
                /\ app_store (run_app run) = setUserToken U T (app_store app))
  \/ (sub = LogoutCmd
      /\ app_store (run_app run) = deleteUserToken U (app_store app))
  \/ (exists e c, sub = SettingsCmd e c
                  /\ app_store (run_app run)
                     = setUserSettings U {| expiry := e; compression := c |}
                         (app_store app)).
Proof.
  unfold handleSubcommand, paginateUploads. intros Hrun.
  destruct sub; simpl in Hrun; repeat case_match; simplify_eq; simpl;
    eauto 8.
Qed.

Lemma interactionCreate_app (w : World) (fuel : nat) (U : jsstring)
    (sub : Subcommand) (app app' : App) (out : list Effect) :
  interactionCreate w fuel U sub app = Some (app', out) ->
  exists run,
    handleSubcommand w fuel U sub app = Some run /\ app' = run_app run.
Proof.
  unfold interactionCreate. intros H.
  destruct (handleSubcommand w fuel U sub app) as [run|]; [|discriminate].
  exists run. split; [reflexivity|].
  destruct (run_result run); congruence.
Qed.

(** X2: the files follow the objects.  If both files are up to date when a
    command arrives, they are up to date when it has been handled, whatever
    the command and whatever the remote answers; they are at start-up. *)
Theorem files_stay_in_sync (w : World) (fuel : nat) (U : jsstring)
    (sub : Subcommand) (app app' : App) (out : list Effect) :
  inSync (app_store app) ->
  interactionCreate w fuel U sub app = Some (app', out) ->
  inSync initialStore /\ inSync (app_store app').
Proof.
  intros [Htok Hset] Hic. split; [split; reflexivity|].
  destruct (interactionCreate_app _ _ _ _ _ _ _ Hic) as (run & Hrun & ->).
  destruct (handleSubcommand_store _ _ _ _ _ _ Hrun)
    as [-> | [(T & _ & ->) | [(_ & ->) | (e & c & _ & ->)]]];
    split; simpl; congruence.
Qed.

Lemma files_stay_in_sync_witness :
  inSync (app_store
            (mkApp (setUserToken alice (js "tok") initialStore) ∅ [])).
Proof.
  assert (Hsync : inSync (app_store (mkApp initialStore ∅ [])))
    by (split; reflexivity).
  assert (Hic : interactionCreate brokenDownload 0 alice
                  (SetTokenCmd (js "tok")) (mkApp initialStore ∅ [])
                = Some (mkApp (setUserToken alice (js "tok") initialStore) ∅ [],
                        [Reply TokenSaved])) by reflexivity.
  exact (proj2 (files_stay_in_sync _ _ _ _ _ _ _ Hsync Hic)).
Defined.

(** X3: a command of user [U] never changes what is stored for another
    user; only the token commands change tokens, and only the settings
    command changes settings: logging out keeps the settings of the user,
    saving settings keeps the token. *)
Theorem commands_touch_only_their_entry (w : World) (fuel : nat)
    (U : jsstring) (sub : Subcommand) (app app' : App) (out : list Effect) :
  interactionCreate w fuel U sub app = Some (app', out) ->
  (forall V, V <> U ->
     userTokens (app_store app') !! V = userTokens (app_store app) !! V
     /\ userSettings (app_store app') !! V
        = userSettings (app_store app) !! V)
  /\ ((forall T, sub <> SetTokenCmd T) -> sub <> LogoutCmd ->
      userTokens (app_store app') = userTokens (app_store app))
  /\ ((forall e c, sub <> SettingsCmd e c) ->
      userSettings (app_store app') = userSettings (app_store app)).
Proof.
  intros Hic.
  destruct (interactionCreate_app _ _ _ _ _ _ _ Hic) as (run & Hrun & ->).
  destruct (handleSubcommand_store _ _ _ _ _ _ Hrun)
    as [-> | [(T & -> & ->) | [(-> & ->) | (e & c & -> & ->)]]].
  - repeat split; reflexivity.
  - split; [|split].
    + intros V HV. rewrite setUserToken_tokens, lookup_insert_ne by congruence.
      split; reflexivity.
    + intros Hno. exfalso. exact (Hno T eq_refl).
    + reflexivity.
  - split; [|split].
    + intros V HV. rewrite deleteUserToken_tokens, lookup_delete_ne
        by congruence. split; reflexivity.
    + intros _ Hno. contradiction.
    + reflexivity.
  - split; [|split].
    + intros V HV. rewrite setUserSettings_settings, lookup_insert_ne
        by congruence. split; reflexivity.
    + reflexivity.
    + intros Hno. exfalso. exact (Hno e c eq_refl).
Qed.

Lemma commands_touch_only_their_entry_witness :
  getUserSettings alice
    (deleteUserToken alice
       (setUserSettings alice
          {| expiry := Some (js "7d"); compression := None |}
          (setUserToken alice (js "tok") initialStore)))
  = {| expiry := Some (js "7d"); compression := None |}.
Proof.
  set (st := setUserSettings alice
               {| expiry := Some (js "7d"); compression := None |}
               (setUserToken alice (js "tok") initialStore)).
  assert (Hic : interactionCreate brokenDownload 0 alice LogoutCmd
                  (mkApp st ∅ [])
                = Some (mkApp (deleteUserToken alice st) ∅ [],
                        [Reply LoggedOut])) by reflexivity.
  destruct (commands_touch_only_their_entry _ _ _ _ _ _ _ Hic)
    as (_ & _ & Hset).
  unfold getUserSettings. simpl app_store in Hset.
  rewrite Hset by discriminate.
  vm_compute. reflexivity.
Defined.

(** ** The command handler *)

(** X4: without a stored token the commands me, list, upload, settings and
    stats answer with the request to set one, whatever the remote would
    answer and whatever the fuel, and leave the stores, the working
    directory and the collectors as they are. *)
Theorem commands_need_a_token (w : World) (fuel : nat) (U : jsstring)
    (sub : Subcommand) (app : App) :
  getUserToken U (app_store app) = None ->
  (forall T, sub <> SetTokenCmd T) -> sub <> LogoutCmd ->
  sub <> InviteCmd -> sub <> AboutCmd ->
  interactionCreate w fuel U sub app = Some (app, [Reply SetTokenFirst]).
Proof.
  intros Htok Hset Hout Hinv Habout.
  unfold interactionCreate, handleSubcommand.
  destruct sub; try contradiction; try (exfalso; apply (Hset token); reflexivity);
    rewrite Htok; reflexivity.
Qed.

Lemma commands_need_a_token_witness :
  interactionCreate brokenDownload 0 alice
    (UploadCmd (js "https://cdn.example/cat.png") (js "cat.png"))
    (mkApp initialStore ∅ [])
  = Some (mkApp initialStore ∅ [], [Reply SetTokenFirst]).
Proof.
  apply commands_need_a_token; try discriminate. reflexivity.
Defined.



(** X6: the token last set is the one the remote is asked with, and after
    a logout the remote is not asked at all.  For a non-empty token [T]:
    settoken stores it and confirms; me then answers with what
    [ziplineGetMe] gives for [T], or with the failure notice; logout
    removes the token and confirms; me then asks for a token. *)
Theorem token_lifecycle (w : World) (fuel : nat) (U T : jsstring)
    (app : App) :
  T <> [] ->
  let app1 := withStore app (setUserToken U T (app_store app)) in
  let app2 := withStore app1 (deleteUserToken U (app_store app1)) in
  interactionCreate w fuel U (SetTokenCmd T) app
  = Some (app1, [Reply TokenSaved])
  /\ interactionCreate w fuel U MeCmd app1
     = Some (app1,
             match ziplineGetMe w T with
             | Ok data => [DeferReply; EditReply (MeInfo data)]
             | Throw e => [DeferReply; LogError e (js "InteractionHandler");
                           EditReply ErrorOccurred]
             end)
  /\ interactionCreate w fuel U LogoutCmd app1 = Some (app2, [Reply LoggedOut])
  /\ interactionCreate w fuel U MeCmd app2 = Some (app2, [Reply SetTokenFirst]).
Proof.
  intros HT app1 app2. apply truthy_true in HT.
  assert (H1 : getUserToken U (app_store app1) = Some T).
  { unfold getUserToken, app1. simpl. rewrite lookup_insert_eq, HT.
    reflexivity. }
  assert (H2 : getUserToken U (app_store app2) = None).
  { unfold getUserToken, app2. simpl. rewrite lookup_delete_eq. reflexivity. }
  split; [reflexivity|]. split.
  { unfold interactionCreate, handleSubcommand. rewrite H1.
    destruct (ziplineGetMe w T); reflexivity. }
  split; [reflexivity|].
  unfold interactionCreate, handleSubcommand. rewrite H2. reflexivity.
Qed.

Lemma token_lifecycle_witness :
  interactionCreate brokenDownload 0 alice MeCmd
    (mkApp (setUserToken alice (js "tok") initialStore) ∅ [])
  = Some (mkApp (setUserToken alice (js "tok") initialStore) ∅ [],
          [DeferReply; LogError FetchRejected (js "InteractionHandler");
           EditReply ErrorOccurred]).
Proof.
  assert (Hne : js "tok" <> []) by (vm_compute; discriminate).
  destruct (token_lifecycle brokenDownload 0 alice (js "tok")
              (mkApp initialStore ∅ []) Hne) as (_ & Hme & _).
  exact Hme.
Defined.

Lemma slice_first_page (uploads : list UploadRecord) :
  slice uploads (0 * pageSize) ((0 + 1) * pageSize) = take 5 uploads.
Proof. reflexivity. Qed.

Lemma totalPages_one (uploads : list UploadRecord) :
  uploads <> [] ->
  (0 + 1 = totalPages uploads)%Z <-> List.length uploads <= 5.
Proof.
  intros Hne.
  pose proof (ceilDiv_isCeiling (Z.of_nat (List.length uploads)) pageSize
                eq_refl) as Hc.
  pose proof (totalPages_positive uploads Hne) as Hpos.
  unfold totalPages, isCeiling, pageSize in *. lia.
Qed.

(** X7: the list command, when the listing succeeds.  With no uploads it
    says so and starts nothing.  Otherwise it starts one collector owned by
    the caller on page 0 and sends the first five uploads at most under the
    footer "Page 1 of [totalPages]", the back button disabled and the next
    button disabled exactly when there are five uploads or fewer. *)
Theorem list_command_outcome (w : World) (fuel : nat) (U token : jsstring)
    (app : App) (uploads : list UploadRecord) :
  getUserToken U (app_store app) = Some token ->
  ziplineFetchAllUserUploads w token fuel = Some (Ok uploads) ->
  (uploads = [] ->
   interactionCreate w fuel U ListCmd app = Some (app, [Reply NoUploadsFound]))
  /\ (uploads <> [] ->
      exists next,
        interactionCreate w fuel U ListCmd app
        = Some ({| app_store := app_store app; app_fs := app_fs app;
                   app_collectors :=
                     mkCollector (mkSession U uploads 0) false
                     :: app_collectors app |},
                [ReplyPage (mkEmbed 1 (totalPages uploads) (take 5 uploads))
                   (mkControls true next)])
        /\ (next = true <-> List.length uploads <= 5)).
Proof.
  intros Htok Hfetch.
  unfold interactionCreate, handleSubcommand. rewrite Htok, Hfetch.
  split.
  - intros ->. reflexivity.
  - intros Hne. destruct uploads as [|x uploads]; [contradiction|].
    eexists. split; [reflexivity|].
    rewrite bool_decide_eq_true. apply totalPages_one. discriminate.
Qed.

Lemma list_command_outcome_witness :
  exists next,
    interactionCreate (remoteOf [[upload 1; upload 2]; [upload 3]]) 3 alice
      ListCmd (mkApp (setUserToken alice (js "tok") initialStore) ∅ [])
    = Some (mkApp (setUserToken alice (js "tok") initialStore) ∅
              [mkCollector
                 (mkSession alice [upload 1; upload 2; upload 3] 0) false],
            [ReplyPage (mkEmbed 1 1 [upload 1; upload 2; upload 3])
               (mkControls true next)]).
Proof.
  assert (Htok : getUserToken alice
                   (app_store
                      (mkApp (setUserToken alice (js "tok") initialStore) ∅ []))
                 = Some (js "tok")) by (vm_compute; reflexivity).
  assert (Hfetch : ziplineFetchAllUserUploads
                     (remoteOf [[upload 1; upload 2]; [upload 3]])
                     (js "tok") 3
                   = Some (Ok [upload 1; upload 2; upload 3]))
    by (vm_compute; reflexivity).
  destruct (list_command_outcome _ _ _ _ _ _ Htok Hfetch) as [_ Hsome].
  destruct Hsome as (next & Hic & _); [discriminate|].
  exists next. exact Hic.
Defined.

Lemma statsCommand_statsReply (w : World) (token : jsstring) :
  exists m,
    statsReply (hostStats w) (parsed (ziplineGetStats w))
      (parsed (ziplineGetMe w token)) = Some m
    /\ statsCommand w token = [DeferReply; EditReply m].
Proof.
  unfold statsReply, statsCommand, parsed.
  destruct (ziplineGetStats w), (ziplineGetMe w token); eexists;
    split; reflexivity.
Qed.

(** X8: the stats command answers unless a body is null.  On the outcomes
    of its two requests, lines 441 to 481 produce the text with the three
    parts whenever neither request resolved with the JSON value [null]: a
    failed stats request shows the line "Unavailable", a failed profile
    request the user "Unknown" with 0 bytes used and no maximum.  If either
    request resolved with [null], reading its field throws before the text
    is sent.  For a user whose token is set and on bodies that are objects,
    the handler defers, edits once with that text and never reaches its
    [catch]. *)
Theorem stats_answers_unless_null_body (w : World) (fuel : nat)
    (U token : jsstring) (app : App) (host : HostStats)
    (stats : result (option ZipStats)) (me : result (option Me)) :
  (stats <> Ok None -> me <> Ok None ->
   exists zip m,
     statsReply host stats me = Some (StatsText host zip m)
     /\ (forall e, stats = Throw e -> zip = ZipErrorLine (js "Unavailable"))
     /\ (forall e, me = Throw e ->
           m = mkMeSection (Some (js "Unknown")) 0 None)
     /\ (forall z, stats = Ok (Some z) -> zip = zipSection z)
     /\ (forall p, me = Ok (Some p) -> m = meSection p))
  /\ (stats = Ok None \/ me = Ok None -> statsReply host stats me = None)
  /\ (getUserToken U (app_store app) = Some token ->
      exists text,
        statsReply (hostStats w) (parsed (ziplineGetStats w))
          (parsed (ziplineGetMe w token)) = Some text
        /\ interactionCreate w fuel U StatsCmd app
           = Some (app, [DeferReply; EditReply text])).
Proof.
  split; [|split].
  - intros Hstats Hme. unfold statsReply.
    destruct stats as [[z|]|e]; try contradiction;
      destruct me as [[p|]|e']; try contradiction;
      eexists _, _; (split; [reflexivity|]);
      repeat split; intros; simplify_eq; reflexivity.
  - unfold statsReply. intros [-> | ->]; [reflexivity|].
    destruct stats as [[z|]|e]; reflexivity.
  - intros Htok.
    destruct (statsCommand_statsReply w token) as (text & Htext & Hcmd).
    exists text. split; [exact Htext|].
    unfold interactionCreate, handleSubcommand. rewrite Htok, Hcmd.
    reflexivity.
Qed.

Lemma stats_answers_unless_null_body_witness :
  statsReply (hostStats brokenDownload) (Ok None) (Throw FetchRejected) = None
  /\ exists text,
       interactionCreate brokenDownload 0 alice StatsCmd
         (mkApp (setUserToken alice (js "tok") initialStore) ∅ [])
       = Some (mkApp (setUserToken alice (js "tok") initialStore) ∅ [],
               [DeferReply; EditReply text]).
Proof.
  destruct (stats_answers_unless_null_body brokenDownload 0 alice (js "tok")
              (mkApp (setUserToken alice (js "tok") initialStore) ∅ [])
              (hostStats brokenDownload) (Ok None) (Throw FetchRejected))
    as (_ & Hnull & Hcmd).
  split; [apply Hnull; left; reflexivity|].
  destruct Hcmd as (text & _ & Hic); [vm_compute; reflexivity|].
  exists text. exact Hic.
Defined.

(** ** Upload file: what happens to the working directory *)

(** X9: when the upload request is answered, with whatever status, the
    working directory after the call is exactly what it was before, the
    staging file having been absent: the call returns the parsed body on
    success and throws on a non-success status only after the removal. *)
Theorem upload_answered_restores_directory (w : World) (st : Store)
    (now : jsstring) (headers : list (jsstring * jsstring))
    (token url filename userId : jsstring) (fs : FileSystem)
    (bytes : list N) (ok : bool) (status : Z) (text : jsstring)
    (json : option UploadJson) :
  fs !! tmpPath now filename = None ->
  attachment w url = DownloadResponse true (StreamEnds bytes) ->
  apiUpload w (uploadHeaders token headers (getUserSettings userId st)) bytes
  = Response ok status text json ->
  ziplineUploadFromUrl w st now headers token url filename userId fs
  = (if ok then resJson json else Throw (UploadApiError status), fs).
Proof.
  intros Hfresh Hdl Hup.
  destruct (upload_answered_removes_staging_file w st now headers token url
              filename userId fs bytes ok status text json Hfresh Hdl Hup)
    as [Hfs Hres].
  rewrite (surjective_pairing (ziplineUploadFromUrl _ _ _ _ _ _ _ _ _)).
  rewrite Hfs, Hres. reflexivity.
Qed.

Lemma upload_answered_restores_directory_witness :
  ziplineUploadFromUrl (uploadWorld (Response false 500 [] None)) initialStore
    (js "17") [] (js "tok") catUrl catPng alice someFiles
  = (Throw (UploadApiError 500), someFiles).
Proof.
  apply (upload_answered_restores_directory
           (uploadWorld (Response false 500 [] None)) initialStore
           (js "17") [] (js "tok") catUrl catPng alice someFiles
           [137; 80; 78]%N false 500 [] None); reflexivity.
Defined.

(** X10: a download that is rejected or answered with a non-success status
    makes the call throw with the working directory untouched, and the
    outcome does not depend on the upload endpoint, which is not asked. *)
Theorem upload_refused_download_touches_nothing (w : World) (st : Store)
    (now : jsstring) (headers : list (jsstring * jsstring))
    (token url filename userId : jsstring) (fs : FileSystem) :
  attachment w url = DownloadRejected
  \/ (exists body, attachment w url = DownloadResponse false body) ->
  (ziplineUploadFromUrl w st now headers token url filename userId fs
   = (Throw FetchRejected, fs)
   \/ ziplineUploadFromUrl w st now headers token url filename userId fs
      = (Throw DownloadFailed, fs))
  /\ forall w',
       attachment w' url = attachment w url ->
       ziplineUploadFromUrl w' st now headers token url filename userId fs
       = ziplineUploadFromUrl w st now headers token url filename userId fs.
Proof.
  intros Hdl. unfold ziplineUploadFromUrl. split.
  - destruct Hdl as [-> | (body & ->)]; simpl; auto.
  - intros w' ->. destruct Hdl as [-> | (body & ->)]; reflexivity.
Qed.

Lemma upload_refused_download_touches_nothing_witness :
  ziplineUploadFromUrl (listingWorld (fun _ _ _ => Rejected)) initialStore
    (js "17") [] (js "tok") catUrl catPng alice someFiles
  = (Throw FetchRejected, someFiles).
Proof.
  destruct (upload_refused_download_touches_nothing
              (listingWorld (fun _ _ _ => Rejected)) initialStore
              (js "17") [] (js "tok") catUrl catPng alice someFiles)
    as [[H|H] _]; [left; reflexivity | exact H | discriminate H].
Defined.

(** X11: whatever happens, the call changes no file but its staging file. *)
Theorem upload_touches_only_staging_file (w : World) (st : Store)
    (now : jsstring) (headers : list (jsstring * jsstring))
    (token url filename userId : jsstring) (fs : FileSystem) (p : jsstring) :
  p <> tmpPath now filename ->
  snd (ziplineUploadFromUrl w st now headers token url filename userId fs) !! p
  = fs !! p.
Proof.
  intros Hp. unfold ziplineUploadFromUrl, unlinkSync.
  destruct (attachment w url) as [|[] [bytes|written]]; simpl;
    try reflexivity; try (apply lookup_insert_ne; congruence).
  rewrite lookup_insert_eq.
  destruct (apiUpload w _ bytes) as [|ok status text json]; simpl.
  - apply lookup_insert_ne. congruence.
  - destruct ok; simpl;
      rewrite lookup_delete_ne, lookup_insert_ne by congruence; reflexivity.
Qed.

Lemma upload_touches_only_staging_file_witness :
  snd (ziplineUploadFromUrl brokenDownload initialStore (js "17") []
         (js "tok") catUrl catPng alice someFiles) !! js "config.json"
  = Some [123; 125]%N.
Proof.
  rewrite upload_touches_only_staging_file;
    [reflexivity | vm_compute; discriminate].
Defined.

(** X12: when the upload request itself is rejected (no response at all),
    the call throws that rejection and the staging file stays behind,
    holding the bytes downloaded. *)
Theorem upload_rejected_request_leaves_staging_file (w : World) (st : Store)
    (now : jsstring) (headers : list (jsstring * jsstring))
    (token url filename userId : jsstring) (fs : FileSystem)
    (bytes : list N) :
  attachment w url = DownloadResponse true (StreamEnds bytes) ->
  apiUpload w (uploadHeaders token headers (getUserSettings userId st)) bytes
  = Rejected ->
  ziplineUploadFromUrl w st now headers token url filename userId fs
  = (Throw FetchRejected, <[tmpPath now filename := bytes]> fs).
Proof.
  intros Hdl Hup. unfold ziplineUploadFromUrl.
  rewrite Hdl. simpl. rewrite Hup. reflexivity.
Qed.

Lemma upload_rejected_request_leaves_staging_file_witness :
  snd (ziplineUploadFromUrl (uploadWorld Rejected) initialStore (js "17") []
         (js "tok") catUrl catPng alice someFiles)
  !! tmpPath (js "17") catPng
  = Some [137; 80; 78]%N.
Proof.
  rewrite (upload_rejected_request_leaves_staging_file (uploadWorld Rejected)
             initialStore (js "17") [] (js "tok") catUrl catPng alice
             someFiles [137; 80; 78]%N); reflexivity.
Defined.

Lemma trimOrNull_truthy (field : option jsstring) (v : jsstring) :
  trimOrNull field = Some v -> truthy v = true.
Proof.
  destruct field as [s|]; simpl; [|discriminate].
  destruct (truthy (trim s)) eqn:Ht; [|discriminate].
  intros [= <-]. exact Ht.
Qed.

(** X13: the headers of the upload request follow the settings as saved.
    After [setUserSettings], the request carries the authorization header,
    the form headers, and one header per field whose trimmed input is not
    empty, with the trimmed value; for a user without stored settings it
    carries the first two only. *)
Theorem upload_headers_follow_settings (token : jsstring)
    (fh : list (jsstring * jsstring)) (U : jsstring) (input : Settings)
    (st : Store) :
  uploadHeaders token fh (getUserSettings U (setUserSettings U input st))
  = (js "Authorization", token) :: fh
    ++ match trimOrNull (expiry input) with
       | Some v => [(js "x-zipline-deletes-at", v)]
       | None => []
       end
    ++ match trimOrNull (compression input) with
       | Some v => [(js "x-zipline-compression", v)]
       | None => []
       end
  /\ (userSettings st !! U = None ->
      uploadHeaders token fh (getUserSettings U st)
      = (js "Authorization", token) :: fh).
Proof.
  split.
  - rewrite getUserSettings_set. unfold uploadHeaders, optionalHeader. simpl.
    destruct (trimOrNull (expiry input)) as [v|] eqn:He;
      destruct (trimOrNull (compression input)) as [v'|] eqn:Hc;
      rewrite ?(trimOrNull_truthy _ _ He), ?(trimOrNull_truthy _ _ Hc);
      reflexivity.
  - intros Hnone. unfold getUserSettings. rewrite Hnone.
    unfold uploadHeaders. simpl. rewrite app_nil_r. reflexivity.
Qed.

Lemma upload_headers_follow_settings_witness :
  uploadHeaders (js "tok") []
    (getUserSettings alice
       (setUserSettings alice
          {| expiry := Some (js " 7d "); compression := Some (js "  ") |}
          initialStore))
  = [(js "Authorization", js "tok"); (js "x-zipline-deletes-at", js "7d")]
  /\ uploadHeaders (js "tok") [] (getUserSettings alice initialStore)
     = [(js "Authorization", js "tok")].
Proof.
  destruct (upload_headers_follow_settings (js "tok") [] alice
              {| expiry := Some (js " 7d "); compression := Some (js "  ") |}
              initialStore) as [Hset Hnone].
  split; [rewrite Hset; reflexivity | apply Hnone; reflexivity].
Defined.

(** ** Fetch all uploads: where the loop stops *)

(** While pages make the loop go on, it goes on. *)
Lemma fetchAllLoop_continues (w : World) (token : jsstring) (k : nat) :
  forall (fuel : nat) (page : Z) (acc : list UploadRecord),
    (forall j, j < k -> continues w token (page + Z.of_nat j)) ->
    fetchAllLoop w token (k + fuel) page acc
    = fetchAllLoop w token fuel (page + Z.of_nat k)
        (acc ++ pagesFrom w token page k).
Proof.
  induction k as [|k IH]; intros fuel page acc Hcont.
  - simpl. rewrite Z.add_0_r, app_nil_r. reflexivity.
  - destruct (Hcont 0 ltac:(lia)) as (resp & x & items & Hresp & Hpage & Hnot).
    rewrite Z.add_0_r in Hresp, Hnot.
    simpl fetchAllLoop. rewrite Hresp, Hpage, Hnot.
    rewrite IH.
    + replace (page + 1 + Z.of_nat k)%Z with (page + Z.of_nat (S k))%Z by lia.
      simpl pagesFrom. unfold pageItems at 1. rewrite Hresp, Hpage. simpl.
      rewrite <- app_assoc. reflexivity.
    + intros j Hj.
      replace (page + 1 + Z.of_nat j)%Z with (page + Z.of_nat (S j))%Z by lia.
      apply Hcont. lia.
Qed.

Lemma pagesFrom_snoc (w : World) (token : jsstring) (n : nat) (page : Z) :
  pagesFrom w token page (S n)
  = pagesFrom w token page n ++ pageItems w token (page + Z.of_nat n).
Proof.
  revert page. induction n as [|n IH]; intros page.
  - simpl. rewrite app_nil_r, Z.add_0_r. reflexivity.
  - change (pagesFrom w token page (S (S n)))
      with (pageItems w token page ++ pagesFrom w token (page + 1) (S n)).
    rewrite IH. simpl pagesFrom at 2. rewrite <- app_assoc.
    replace (page + 1 + Z.of_nat n)%Z with (page + Z.of_nat (S n))%Z by lia.
    reflexivity.
Qed.

Lemma ziplineFetchUserUploads_agree (w w' : World) (token : jsstring)
    (page : Z) :
  apiFiles w' token page 50 = apiFiles w token page 50 ->
  ziplineFetchUserUploads w' token page 50
  = ziplineFetchUserUploads w token page 50.
Proof. unfold ziplineFetchUserUploads. intros ->. reflexivity. Qed.

Lemma pagesFrom_agree (w w' : World) (token : jsstring) (n : nat) :
  forall page,
    (forall j, j < n ->
       apiFiles w' token (page + Z.of_nat j) 50
       = apiFiles w token (page + Z.of_nat j) 50) ->
    pagesFrom w' token page n = pagesFrom w token page n.
Proof.
  induction n as [|n IH]; intros page Hagree; [reflexivity|].
  simpl. unfold pageItems.
  rewrite (ziplineFetchUserUploads_agree w w' token page).
  - rewrite IH; [reflexivity|]. intros j Hj.
    replace (page + 1 + Z.of_nat j)%Z with (page + Z.of_nat (S j))%Z by lia.
    apply Hagree. lia.
  - specialize (Hagree 0 ltac:(lia)). rewrite Z.add_0_r in Hagree.
    exact Hagree.
Qed.

(** X14: a failure discards what was fetched.  If the first [k] pages make
    the loop go on and the request for page [k + 1] throws, the listing
    throws that error, for any fuel above [k]: no partial list is
    returned. *)
Theorem fetchAll_failure_discards_pages (w : World) (token : jsstring)
    (k fuel : nat) (e : Error) :
  (forall j, j < k -> continues w token (1 + Z.of_nat j)) ->
  ziplineFetchUserUploads w token (1 + Z.of_nat k) 50 = Throw e ->
  k < fuel ->
  ziplineFetchAllUserUploads w token fuel = Some (Throw e).
Proof.
  intros Hcont Hthrow Hfuel. unfold ziplineFetchAllUserUploads.
  replace fuel with (k + S (fuel - S k)) by lia.
  rewrite (fetchAllLoop_continues w token k _ 1%Z [] Hcont).
  simpl fetchAllLoop. rewrite Hthrow. reflexivity.
Qed.

Lemma fetchAll_failure_discards_pages_witness :
  ziplineFetchAllUserUploads (listingWorld (fun _ page _ =>
      if bool_decide (page = 1%Z)
      then Response true 200 []
             (Some {| resp_page := Some [upload 1]; resp_pages := Some 2%Z |})
      else Response false 502 (js "Bad Gateway") None)) alice 5
  = Some (Throw (FilesApiError 502 (js "Bad Gateway"))).
Proof.
  apply (fetchAll_failure_discards_pages _ alice 1 5).
  - intros j Hj. assert (j = 0) as -> by lia.
    eexists _, _, _. split; [reflexivity|]. split; reflexivity.
  - reflexivity.
  - lia.
Defined.

(** X15: the loop stops at the reported page count.  If the first [k]
    pages make the loop go on and page [k + 1] is not empty and reaches the
    count its response reports, the listing returns the first [k + 1] pages
    in order, for any fuel above [k]; what the remote would answer for
    later pages is never asked for and does not matter. *)
Theorem fetchAll_stops_at_reported_count (w : World) (token : jsstring)
    (k fuel : nat) :
  (forall j, j < k -> continues w token (1 + Z.of_nat j)) ->
  finishes w token (1 + Z.of_nat k) ->
  k < fuel ->
  ziplineFetchAllUserUploads w token fuel
  = Some (Ok (pagesFrom w token 1 (S k)))
  /\ forall w',
       (forall j, j <= k ->
          apiFiles w' token (1 + Z.of_nat j) 50
          = apiFiles w token (1 + Z.of_nat j) 50) ->
       ziplineFetchAllUserUploads w' token fuel
       = ziplineFetchAllUserUploads w token fuel.
Proof.
  assert (Hrun : forall v,
             (forall j, j < k -> continues v token (1 + Z.of_nat j)) ->
             finishes v token (1 + Z.of_nat k) ->
             k < fuel ->
             ziplineFetchAllUserUploads v token fuel
             = Some (Ok (pagesFrom v token 1 (S k)))).
  { intros v Hcont (resp & x & items & Hresp & Hpage & Hreach) Hfuel.
    unfold ziplineFetchAllUserUploads.
    replace fuel with (k + S (fuel - S k)) by lia.
    rewrite (fetchAllLoop_continues v token k _ 1%Z [] Hcont).
    rewrite pagesFrom_snoc. unfold pageItems at 1.
    simpl fetchAllLoop. rewrite Hresp, Hpage, Hreach. reflexivity. }
  intros Hcont Hfin Hfuel. split; [apply Hrun; assumption|].
  intros w' Hagree.
  assert (Hfetch : forall j, j <= k ->
             ziplineFetchUserUploads w' token (1 + Z.of_nat j) 50
             = ziplineFetchUserUploads w token (1 + Z.of_nat j) 50).
  { intros j Hj. apply ziplineFetchUserUploads_agree, Hagree, Hj. }
  rewrite !Hrun; try assumption.
  - rewrite (pagesFrom_agree w w' token (S k) 1%Z); [reflexivity|].
    intros j Hj. apply Hagree. lia.
  - intros j Hj. destruct (Hcont j Hj) as (resp & x & items & H1 & H2 & H3).
    exists resp, x, items. rewrite Hfetch by lia. auto.
  - destruct Hfin as (resp & x & items & H1 & H2 & H3).
    exists resp, x, items. rewrite Hfetch by lia. auto.
Qed.

Lemma fetchAll_stops_at_reported_count_witness :
  ziplineFetchAllUserUploads (listingWorld (fun _ page _ =>
      if bool_decide (page = 1%Z)
      then Response true 200 []
             (Some {| resp_page := Some [upload 1]; resp_pages := Some 1%Z |})
      else Rejected)) alice 1
  = Some (Ok [upload 1]).
Proof.
  refine (proj1 (fetchAll_stops_at_reported_count _ alice 0 1 _ _ _)).
  - intros j Hj. lia.
  - eexists _, _, _. split; [reflexivity|]. split; reflexivity.
  - lia.
Defined.

(** X16: the loop has no bound of its own.  If every page is not empty and
    never reaches a reported page count, no number of iterations makes the
    listing return. *)
Theorem fetchAll_runs_on_while_pages_continue (w : World) (token : jsstring) :
  (forall j, continues w token (1 + Z.of_nat j)) ->
  forall fuel, ziplineFetchAllUserUploads w token fuel = None.
Proof.
  intros Hcont fuel. unfold ziplineFetchAllUserUploads.
  replace fuel with (fuel + 0) by lia.
  rewrite (fetchAllLoop_continues w token fuel 0 1%Z []); [reflexivity|].
  intros j _. apply Hcont.
Qed.

Lemma fetchAll_runs_on_while_pages_continue_witness :
  ziplineFetchAllUserUploads endless alice 1000 = None.
Proof.
  apply fetchAll_runs_on_while_pages_continue.
  intros j. eexists _, _, _. split; [reflexivity|]. split; reflexivity.
Defined.

(** ** Pagination: the pages and the buttons *)

Lemma pageOf_take_drop (uploads : list UploadRecord) (p : nat) :
  pageOf uploads p = take 5 (drop (5 * p) uploads).
Proof.
  unfold pageOf, slice, pageSize.
  replace (Z.to_nat ((Z.of_nat p + 1) * 5) - Z.to_nat (Z.of_nat p * 5))
    with 5 by lia.
  replace (Z.to_nat (Z.of_nat p * 5)) with (5 * p) by lia.
  reflexivity.
Qed.

Lemma pages_concat_take (uploads : list UploadRecord) (n : nat) :
  List.concat (pageOf uploads <$> seq 0 n) = take (5 * n) uploads.
Proof.
  induction n as [|n IH]; [reflexivity|].
  rewrite seq_S, fmap_app, concat_app, IH. simpl.
  rewrite app_nil_r, pageOf_take_drop, take_take_drop.
  f_equal. lia.
Qed.

Lemma totalPages_bounds (uploads : list UploadRecord) :
  (5 * (totalPages uploads - 1) < Z.of_nat (List.length uploads)
   <= 5 * totalPages uploads)%Z.
Proof.
  apply (ceilDiv_isCeiling _ pageSize). reflexivity.
Qed.

Lemma pageOf_length (uploads : list UploadRecord) (p : nat) :
  List.length (pageOf uploads p) = min 5 (List.length uploads - 5 * p).
Proof. rewrite pageOf_take_drop, length_take, length_drop. reflexivity. Qed.

Lemma pageOf_nonempty (uploads : list UploadRecord) (p : nat) :
  (Z.of_nat p < totalPages uploads)%Z <-> pageOf uploads p <> [].
Proof.
  pose proof (totalPages_bounds uploads) as Hb.
  pose proof (pageOf_length uploads p) as Hlen.
  destruct (pageOf uploads p) as [|x l]; cbn [List.length] in Hlen; split.
  - intros H. exfalso. lia.
  - intros H. contradiction.
  - discriminate.
  - intros _. lia.
Qed.

(** X17: the pages partition the listing.  The pages with index 0 to
    [totalPages - 1], one after the other, are the uploads, each page holds
    at most five of them, and each holds at least one; a page index from
    [totalPages] on gives an empty page. *)
Theorem pages_partition_uploads (uploads : list UploadRecord) :
  List.concat (pageOf uploads <$> seq 0 (Z.to_nat (totalPages uploads)))
  = uploads
  /\ forall p,
       List.length (pageOf uploads p) = min 5 (List.length uploads - 5 * p)
       /\ ((Z.of_nat p < totalPages uploads)%Z <-> pageOf uploads p <> []).
Proof.
  pose proof (totalPages_bounds uploads) as Hb.
  split.
  - rewrite pages_concat_take. apply take_ge. lia.
  - intros p. split; [apply pageOf_length | apply pageOf_nonempty].
Qed.

Lemma createEmbed_real (s : Session) (c : Controls) :
  (0 <= s_page s < totalPages (s_uploads s))%Z ->
  showsRealPage (s_uploads s) (NavUpdate (createEmbed s) c)
  /\ showsRealPage (s_uploads s) (ReplyPage (createEmbed s) c).
Proof.
  intros Hr.
  assert (Hitems : em_items (createEmbed s)
                   = pageOf (s_uploads s)
                       (Z.to_nat (em_footerPage (createEmbed s) - 1))).
  { unfold createEmbed, pageOf. simpl.
    replace (Z.of_nat (Z.to_nat (s_page s + 1 - 1))) with (s_page s) by lia.
    reflexivity. }
  assert (Hne : em_items (createEmbed s) <> []).
  { rewrite Hitems.
    apply pageOf_nonempty. simpl. lia. }
  split; simpl; (split; [lia|]); (split; [reflexivity|]);
    (split; [exact Hitems | exact Hne]).
Qed.

(** X18: a button is disabled exactly when pressing it would do nothing.
    For a session whose page index is in range and a press by the owner:
    "prev" leaves the index if the back button is disabled and lowers it by
    one otherwise; "next" leaves it if the next button is disabled and
    raises it by one otherwise. *)
Theorem buttons_match_navigation (s : Session) (who : jsstring) :
  who = s_owner s ->
  (0 <= s_page s < totalPages (s_uploads s))%Z ->
  s_page (fst (onCollect s (mkNavEvent who (js "prev"))))
  = (if prevDisabled (controls s) then s_page s else s_page s - 1)%Z
  /\ s_page (fst (onCollect s (mkNavEvent who (js "next"))))
     = (if nextDisabled (controls s) then s_page s else s_page s + 1)%Z.
Proof.
  intros Hown Hr. rewrite !onCollect_owner_page by exact Hown.
  unfold navigated, controls. simpl.
  pose proof prev_is_not_next as Hpn.
  split; repeat case_bool_decide; try reflexivity; try lia; congruence.
Qed.

Lemma buttons_match_navigation_witness :
  s_page (fst (onCollect (mkSession alice twelve 1)
                 (mkNavEvent alice (js "prev")))) = 0%Z
  /\ s_page (fst (onCollect (mkSession alice twelve 2)
                    (mkNavEvent alice (js "next")))) = 2%Z.
Proof.
  split.
  - refine (proj1 (buttons_match_navigation (mkSession alice twelve 1) alice
                     eq_refl _)).
    vm_compute. split; [discriminate | reflexivity].
  - refine (proj2 (buttons_match_navigation (mkSession alice twelve 2) alice
                     eq_refl _)).
    vm_compute. split; [discriminate | reflexivity].
Defined.

Lemma withPage_same (s : Session) : withPage s (s_page s) = s.
Proof. destruct s; reflexivity. Qed.

(** X19: "next" and "prev" undo each other.  For the owner, from a page
    that is not the last, "next" then "prev" gives back the session; from a
    page that is not the first, "prev" then "next" does. *)
Theorem next_and_prev_are_inverse (s : Session) (who : jsstring) :
  who = s_owner s ->
  (0 <= s_page s < totalPages (s_uploads s))%Z ->
  let next := mkNavEvent who (js "next") in
  let prev := mkNavEvent who (js "prev") in
  ((s_page s + 1 < totalPages (s_uploads s))%Z ->
   fst (onCollect (fst (onCollect s next)) prev) = s)
  /\ ((0 < s_page s)%Z ->
      fst (onCollect (fst (onCollect s prev)) next) = s).
Proof.
  intros Hown Hr next prev.
  assert (Hform : forall (t : Session) (i : NavEvent),
             ev_user i = s_owner t ->
             fst (onCollect t i)
             = withPage t (navigated (ev_customId i) (s_page t)
                             (totalPages (s_uploads t)))).
  { intros t i Hi. rewrite <- (onCollect_owner_page t i Hi).
    unfold onCollect.
    rewrite bool_decide_eq_false_2 by (intros Hne; apply Hne; exact Hi).
    reflexivity. }
  pose proof prev_is_not_next as Hpn.
  split; intros Hedge.
  - rewrite (Hform s next Hown).
    rewrite Hform by (simpl; exact Hown).
    destruct s as [o u p]. unfold withPage, navigated. simpl in *. f_equal.
    repeat case_bool_decide; try lia; try congruence.
  - rewrite (Hform s prev Hown).
    rewrite Hform by (simpl; exact Hown).
    destruct s as [o u p]. unfold withPage, navigated. simpl in *. f_equal.
    repeat case_bool_decide; try lia; try congruence.
Qed.

Lemma next_and_prev_are_inverse_witness :
  fst (onCollect
         (fst (onCollect (mkSession alice twelve 1)
                 (mkNavEvent alice (js "next"))))
         (mkNavEvent alice (js "prev")))
  = mkSession alice twelve 1.
Proof.
  refine (proj1 (next_and_prev_are_inverse (mkSession alice twelve 1) alice
                   eq_refl _) _);
    vm_compute; try split; first [discriminate | reflexivity].
Defined.

Lemma onCollect_shows_real (s : Session) (i : NavEvent) :
  (0 <= s_page s < totalPages (s_uploads s))%Z ->
  Forall (showsRealPage (s_uploads s)) (snd (onCollect s i)).
Proof.
  intros Hr.
  pose proof (onCollect_page_range s i Hr) as Hr'.
  pose proof (onCollect_owner s i) as [_ Hup].
  unfold onCollect in *.
  destruct (bool_decide (ev_user i ≠ s_owner s)); simpl in *.
  - repeat constructor.
  - constructor; [|constructor].
    match goal with
    | |- showsRealPage _ (NavUpdate (createEmbed ?t) ?c) =>
        pose proof (createEmbed_real t c) as [Hreal _]
    end.
    + simpl. exact Hr'.
    + exact Hreal.
Qed.

Lemma collectorRun_shows_real (xs : list CollectorInput) :
  forall c,
    (0 <= s_page (c_session c) < totalPages (s_uploads (c_session c)))%Z ->
    Forall (showsRealPage (s_uploads (c_session c))) (snd (collectorRun c xs)).
Proof.
  induction xs as [|x xs IH]; intros c Hr; [constructor|].
  rewrite collectorRun_cons. cbn [snd].
  pose proof (collectorRun_page_range c [x] Hr) as Hstep.
  rewrite collectorRun_cons in Hstep. cbn [fst collectorRun] in Hstep.
  cbn zeta in Hstep. destruct Hstep as (Hr1 & _ & Hu1).
  apply Forall_app. split.
  - unfold collectorStep. destruct (c_ended c); [constructor|].
    destruct x as [i|].
    + pose proof (onCollect_shows_real (c_session c) i Hr) as Hout.
      destruct (onCollect (c_session c) i). exact Hout.
    + repeat constructor.
  - rewrite <- Hu1. apply IH. exact Hr1.
Qed.

(** X20: the listing never shows a page that does not exist.  For a
    non-empty list of uploads, the first reply and every update the
    collector sends, whatever is pressed by whomever and in whatever order,
    carries a footer "Page x of [totalPages]" with [1 <= x <= totalPages]
    and the items of page [x], of which there is at least one. *)
Theorem listing_shows_real_pages (owner : jsstring)
    (uploads : list UploadRecord) (xs : list CollectorInput) :
  uploads <> [] ->
  Forall (showsRealPage uploads) (snd (paginateUploads owner uploads))
  /\ Forall (showsRealPage uploads)
       (snd (collectorRun (fst (paginateUploads owner uploads)) xs)).
Proof.
  intros Hne.
  pose proof (totalPages_positive uploads Hne) as Hpos.
  assert (Hr : (0 <= 0 < totalPages uploads)%Z) by lia.
  split.
  - constructor; [|constructor].
    apply (createEmbed_real (mkSession owner uploads 0)). exact Hr.
  - apply (collectorRun_shows_real xs
             (mkCollector (mkSession owner uploads 0) false)). exact Hr.
Qed.

Lemma listing_shows_real_pages_witness :
  Forall (showsRealPage twelve)
    (snd (collectorRun (fst (paginateUploads alice twelve))
            [Pressed (mkNavEvent alice (js "next"));
             Pressed (mkNavEvent bob (js "prev")); TimeElapsed])).
Proof.
  apply listing_shows_real_pages. vm_compute. discriminate.
Defined.

(** ** The description line of an upload *)

Example trimString_long :
  trimString (Some (js "holiday-pictures-2024.zip")) 15
  = js "holiday-pictur" ++ cutMark
  /\ Dashboard.trimString (Some (js "holiday-pictures-2024.zip")) 15
     = js "holiday-pictur" ++ Dashboard.ellipsis.
Proof. split; reflexivity. Qed.

Example trimString_zero_limit :
  trimString (Some (js "abc")) 0 = js "ab" ++ cutMark.
Proof. reflexivity. Qed.

Lemma orString_truthy (a : option jsstring) (b : jsstring) :
  truthy b = true -> truthy (orString a b) = true.
Proof.
  intros Hb. unfold orString. destruct a as [s|]; [|exact Hb].
  destruct (truthy s) eqn:Hs; [exact Hs | exact Hb].
Qed.

Lemma trimStringWith_15 (mark name : jsstring) :
  name <> [] ->
  (List.length name <= 15 -> trimStringWith mark (Some name) 15 = name)
  /\ (15 < List.length name ->
      trimStringWith mark (Some name) 15 = take 14 name ++ mark
      /\ List.length (trimStringWith mark (Some name) 15)
         = 14 + List.length mark).
Proof.
  intros Hne. apply truthy_true in Hne.
  unfold trimStringWith. rewrite Hne. cbn [negb].
  destruct (Z.ltb_spec 15 (Z.of_nat (List.length name))) as [Hlong|Hshort].
  - unfold sliceTo. change (15 - 1 <? 0)%Z with false. cbn iota.
    change (Z.to_nat (15 - 1)) with 14.
    split; [intros H; lia|]. intros _. split; [reflexivity|].
    rewrite length_app, length_take, Nat.min_l by lia. reflexivity.
  - split; [intros _; reflexivity | intros H; lia].
Qed.

(** X21: the name shown for an upload.  It is the original name, else the
    name, else "Unnamed", whichever is the first not empty, and it is shown
    whole when it has at most 15 code units.  A longer name is cut to its
    first 14 code units followed by the literal of the source.  In
    [src/index.js] that literal has three code units, so a cut name has 17
    and what is shown has between 1 and 17; in the variant of
    [src/deploy-commands.js] it is the ellipsis, one code unit, so a cut
    name has 15 and what is shown has between 1 and 15. *)
Theorem display_name_cut (f : UploadRecord) :
  let name := orString (up_originalName f)
                (orString (up_name f) (js "Unnamed")) in
  (List.length name <= 15 ->
   displayName f = name /\ Dashboard.displayName f = name)
  /\ (15 < List.length name ->
      displayName f = take 14 name ++ cutMark
      /\ List.length (displayName f) = 17
      /\ Dashboard.displayName f = take 14 name ++ Dashboard.ellipsis
      /\ List.length (Dashboard.displayName f) = 15)
  /\ 1 <= List.length (displayName f) <= 17
  /\ 1 <= List.length (Dashboard.displayName f) <= 15.
Proof.
  intros name.
  assert (Hname : name <> []).
  { apply truthy_true, orString_truthy, orString_truthy. reflexivity. }
  unfold displayName, Dashboard.displayName, trimString, Dashboard.trimString.
  fold name.
  destruct (trimStringWith_15 cutMark name Hname) as [Hs1 Hl1].
  destruct (trimStringWith_15 Dashboard.ellipsis name Hname) as [Hs2 Hl2].
  assert (Hpos : 1 <= List.length name)
    by (destruct name; [contradiction | simpl; lia]).
  split; [|split].
  - intros Hshort. split; [apply Hs1 | apply Hs2]; exact Hshort.
  - intros Hlong. destruct (Hl1 Hlong) as [-> _].
    destruct (Hl2 Hlong) as [-> _].
    rewrite !length_app, length_take, Nat.min_l by lia.
    repeat split; reflexivity.
  - destruct (Nat.le_gt_cases (List.length name) 15) as [Hshort|Hlong].
    + rewrite (Hs1 Hshort), (Hs2 Hshort). lia.
    + destruct (Hl1 Hlong) as [_ ->]. destruct (Hl2 Hlong) as [_ ->].
      change (List.length cutMark) with 3.
      change (List.length Dashboard.ellipsis) with 1. lia.
Qed.

Lemma display_name_cut_witness :
  displayName (mkUpload (js "1") (Some (js "holiday-pictures-2024.zip")) None
                 None None None)
  = js "holiday-pictur" ++ cutMark.
Proof.
  destruct (display_name_cut
              (mkUpload (js "1") (Some (js "holiday-pictures-2024.zip")) None
                 None None None)) as (_ & Hlong & _).
  destruct Hlong as (Hcut & _); [vm_compute; lia|].
  rewrite Hcut. reflexivity.
Defined.

(** X22: the link of an upload is the record's own URL when that starts
    with "http", and lies under the base URL otherwise: the base followed
    by the record's URL when it has one, and by "/u/" and the id when the
    URL is missing or empty. *)
Theorem upload_link_is_own_or_under_base (base : jsstring)
    (f : UploadRecord) :
  (forall u, up_url f = Some u -> js "http" `prefix_of` u ->
     uploadUrl base f = u)
  /\ (forall u, up_url f = Some u -> u <> [] -> ~ js "http" `prefix_of` u ->
        uploadUrl base f = base ++ u)
  /\ (up_url f = None \/ up_url f = Some [] ->
      uploadUrl base f = base ++ js "/u/" ++ up_id f)
  /\ (js "http" `prefix_of` uploadUrl base f
      \/ base `prefix_of` uploadUrl base f).
Proof.
  unfold uploadUrl, startsWith, orString.
  destruct (up_url f) as [u|] eqn:Hu.
  - destruct u as [|c u].
    + simpl. split; [|split; [|split]].
      * intros u' [= <-] [k Hk]. discriminate.
      * intros u' [= <-] Hne. contradiction.
      * intros _. reflexivity.
      * right. eexists. reflexivity.
    + simpl. case_bool_decide as Hhttp; simpl.
      * split; [|split; [|split]].
        -- intros u' [= <-] _. reflexivity.
        -- intros u' [= <-] _ Hno. contradiction.
        -- intros [H|H]; discriminate.
        -- left. exact Hhttp.
      * split; [|split; [|split]].
        -- intros u' [= <-] Hyes. contradiction.
        -- intros u' [= <-] _ _. reflexivity.
        -- intros [H|H]; discriminate.
        -- right. eexists. reflexivity.
  - simpl. split; [|split; [|split]].
    + intros u' H. discriminate.
    + intros u' H. discriminate.
    + intros _. reflexivity.
    + right. eexists. reflexivity.
Qed.

Lemma upload_link_is_own_or_under_base_witness :
  uploadUrl (js "https://zip.example")
    (mkUpload (js "abc") None None (Some (js "/u/cat.png")) None None)
  = js "https://zip.example/u/cat.png"
  /\ uploadUrl (js "https://zip.example")
       (mkUpload (js "abc") None None None None None)
     = js "https://zip.example/u/abc".
Proof.
  split.
  - destruct (upload_link_is_own_or_under_base (js "https://zip.example")
                (mkUpload (js "abc") None None (Some (js "/u/cat.png"))
                   None None)) as (_ & Hrel & _).
    rewrite (Hrel (js "/u/cat.png") eq_refl); [reflexivity | discriminate |].
    intros [k Hk]. vm_compute in Hk. discriminate.
  - destruct (upload_link_is_own_or_under_base (js "https://zip.example")
                (mkUpload (js "abc") None None None None None))
      as (_ & _ & Hnone & _).
    rewrite Hnone; [reflexivity | left; reflexivity].
Defined.

Example formatFileSize_samples :
  formatFileSize <$> [None; Some 0; Some 1; Some 52; Some 1536; Some 1048575;
                      Some 1048576; Some 5767168; Some (-512)]%Z
  = js <$> ["unknown"; "unknown"; "0.0 KB"; "0.1 KB"; "1.5 KB"; "1024.0 KB";
            "1.00 MB"; "5.50 MB"; "-0.5 KB"]%string.
Proof. vm_compute. reflexivity. Qed.

Lemma roundHalfUp_nearest (a den : Z) (f : nat) :
  (0 <= a)%Z -> (0 < den)%Z ->
  (0 <= roundHalfUp a den f)%Z
  /\ (2 * Z.abs (den * roundHalfUp a den f - 10 ^ Z.of_nat f * a) <= den)%Z.
Proof.
  intros Ha Hden. unfold roundHalfUp.
  assert (Hp : (0 < 10 ^ Z.of_nat f)%Z) by (apply Z.pow_pos_nonneg; lia).
  set (p := (10 ^ Z.of_nat f)%Z) in *.
  pose proof (Z.div_mod (2 * a * p + den) (2 * den) ltac:(lia)) as Hdm.
  pose proof (Z.mod_pos_bound (2 * a * p + den) (2 * den) ltac:(lia)) as Hb.
  set (q := ((2 * a * p + den) / (2 * den))%Z) in *.
  set (r := ((2 * a * p + den) mod (2 * den))%Z) in *.
  split; [nia | lia].
Qed.

(** X23: the size shown for an upload, for a size that is a safe integer
    (at most [2^53 - 1]).  A missing size and a size of 0 are shown as
    "unknown".  A size below 1048576 bytes is shown in KB with one decimal,
    the tenths [n] being the closest to [bytes / 1024], at most 10240 (so
    "1024.0 KB" can appear); a size from 1048576 bytes on is shown in MB
    with two decimals, the hundredths [n] being the closest to
    [bytes / 1048576], at least 100 and below 10^12, far from where
    [toFixed] leaves the fixed notation. *)
Theorem file_size_unit_and_rounding (b : Z) :
  (0 < b <= maxSafeInteger)%Z ->
  formatFileSize None = js "unknown"
  /\ formatFileSize (Some 0%Z) = js "unknown"
  /\ ((b < 1048576)%Z ->
      exists n,
        formatFileSize (Some b) = fixedDigits n 1 ++ js " KB"
        /\ (0 <= n <= 10240)%Z
        /\ (2 * Z.abs (1024 * n - 10 * b) <= 1024)%Z)
  /\ ((1048576 <= b)%Z ->
      exists n,
        formatFileSize (Some b) = fixedDigits n 2 ++ js " MB"
        /\ (100 <= n < 10 ^ 12)%Z
        /\ (2 * Z.abs (1048576 * n - 100 * b) <= 1048576)%Z).
Proof.
  intros [Hb Hsafe]. unfold maxSafeInteger in Hsafe.
  split; [reflexivity|]. split; [reflexivity|].
  assert (Hform : formatFileSize (Some b)
                  = if (b <? 1048576)%Z then toFixed b 1024 1 ++ js " KB"
                    else toFixed b 1048576 2 ++ js " MB").
  { destruct b; try lia. reflexivity. }
  assert (Hpos : (b <? 0)%Z = false) by lia.
  split; intros Hsize; rewrite Hform.
  - rewrite (proj2 (Z.ltb_lt _ _) Hsize).
    exists (roundHalfUp b 1024 1).
    unfold toFixed. rewrite Hpos, Z.abs_eq by lia.
    split; [reflexivity|].
    pose proof (roundHalfUp_nearest b 1024 1 ltac:(lia) ltac:(lia))
      as [Hn Hnear].
    change (10 ^ Z.of_nat 1)%Z with 10%Z in Hnear. lia.
  - rewrite (proj2 (Z.ltb_ge _ _) Hsize).
    exists (roundHalfUp b 1048576 2).
    unfold toFixed. rewrite Hpos, Z.abs_eq by lia.
    split; [reflexivity|].
    pose proof (roundHalfUp_nearest b 1048576 2 ltac:(lia) ltac:(lia))
      as [Hn Hnear].
    change (10 ^ Z.of_nat 2)%Z with 100%Z in Hnear. lia.
Qed.

Lemma file_size_unit_and_rounding_witness :
  exists n,
    formatFileSize (Some 1536%Z) = fixedDigits n 1 ++ js " KB"
    /\ (2 * Z.abs (1024 * n - 10 * 1536) <= 1024)%Z.
Proof.
  destruct (file_size_unit_and_rounding 1536
              ltac:(unfold maxSafeInteger; lia))
    as (_ & _ & Hkb & _).
  destruct (Hkb ltac:(lia)) as (n & Hfmt & _ & Hnear).
  exists n. split; assumption.
Defined.

(** ** Helper: human-readable OS name *)

Example os_name_samples :
  getReadableOSName (js "linux") (js "5.15.0") (Some osReleaseSample)
  = js "Ubuntu 22.04.3 LTS"
  /\ getReadableOSName (js "linux") (js "5.15.0") None
     = js "Linux kernel 5.15.0"
  /\ getReadableOSName (js "win32") (js "10.0.20348") None
     = js "Windows Server 2016/2019/2022"
  /\ getReadableOSName (js "freebsd") (js "14.0") None = js "freebsd 14.0".
Proof. vm_compute. repeat split. Qed.

Lemma prettyNameOfLine_line (name : jsstring) :
  name <> [] ->
  prettyNameOfLine (prettyNamePrefix ++ name ++ [dquote]) = Some name.
Proof.
  intros Hne. unfold prettyNameOfLine, startsWith.
  rewrite bool_decide_eq_true_2 by (eexists; reflexivity).
  rewrite drop_app_length, last_snoc, N.eqb_refl, length_app. simpl.
  replace (1 <? List.length name + 1) with true.
  - replace (List.length name + 1 - 1) with (List.length name) by lia.
    rewrite take_app_length. reflexivity.
  - symmetry. apply Nat.ltb_lt. destruct name; [contradiction|]. simpl. lia.
Qed.

Lemma prettyNameOfLine_nonempty (line name : jsstring) :
  prettyNameOfLine line = Some name -> name <> [].
Proof.
  unfold prettyNameOfLine. destruct (startsWith line prettyNamePrefix);
    [|discriminate].
  destruct (last _) as [q|]; [|discriminate].
  destruct ((q =? dquote)%N); [|discriminate]. cbn [andb].
  destruct (Nat.ltb_spec 1 (List.length (drop (List.length prettyNamePrefix)
                                           line))) as [Hlen|];
    [|discriminate].
  intros [= <-] Hnil. apply (f_equal List.length) in Hnil.
  rewrite length_take in Hnil.
  change (List.length prettyNamePrefix) with 13 in Hlen.
  cbn [List.length] in Hnil. lia.
Qed.

Lemma matchPrettyName_nonempty (text name : jsstring) :
  matchPrettyName text = Some name -> name <> [].
Proof.
  unfold matchPrettyName.
  destruct (list_find _ (linesOf text)) as [[i line]|]; [|discriminate].
  simpl. apply prettyNameOfLine_nonempty.
Qed.

(** X24: the OS name shown by the stats command is never empty, whatever
    the platform, the release and the content of the release file.  On
    Linux it is the value of the first line of the file of the form
    PRETTY_NAME="value" with a non-empty value, and "Linux kernel" with the
    release when the file cannot be read. *)
Theorem os_name_is_never_empty (platform release : jsstring)
    (osRelease : option jsstring) :
  getReadableOSName platform release osRelease <> []
  /\ (forall text before name after,
        osRelease = Some text ->
        linesOf text
        = before ++ (prettyNamePrefix ++ name ++ [dquote]) :: after ->
        Forall (fun l => prettyNameOfLine l = None) before ->
        name <> [] ->
        getReadableOSName (js "linux") release osRelease = name)
  /\ getReadableOSName (js "linux") release None
     = js "Linux kernel " ++ release.
Proof.
  split; [|split].
  - unfold getReadableOSName.
    repeat case_bool_decide.
    + repeat (destruct (startsWith release _); [discriminate|]). discriminate.
    + destruct (osRelease ≫= matchPrettyName) as [name|] eqn:Hm;
        [|discriminate].
      destruct osRelease as [text|]; [|discriminate]. simpl in Hm.
      apply (matchPrettyName_nonempty _ _ Hm).
    + discriminate.
    + destruct platform; discriminate.
  - intros text before name after -> Hlines Hbefore Hname.
    assert (Hfind : list_find (fun l => is_Some (prettyNameOfLine l))
                      (linesOf text)
                    = Some (List.length before,
                            prettyNamePrefix ++ name ++ [dquote])).
    { apply list_find_Some. rewrite Hlines. split; [|split].
      - rewrite lookup_app_r, Nat.sub_diag by lia. reflexivity.
      - rewrite prettyNameOfLine_line by exact Hname. eexists. reflexivity.
      - intros j y Hj Hlt [n Hn].
        rewrite lookup_app_l in Hj by exact Hlt.
        rewrite Forall_forall in Hbefore.
        rewrite (Hbefore y) in Hn; [discriminate|].
        apply list_elem_of_lookup. eexists. exact Hj. }
    assert (Hm : matchPrettyName text = Some name).
    { unfold matchPrettyName. rewrite Hfind.
      exact (prettyNameOfLine_line name Hname). }
    unfold getReadableOSName.
    replace (Some text ≫= matchPrettyName) with (Some name)
      by (symmetry; exact Hm).
    reflexivity.
  - reflexivity.
Qed.

Lemma os_name_is_never_empty_witness :
  getReadableOSName (js "linux") (js "5.15.0") (Some osReleaseSample)
  = js "Ubuntu 22.04.3 LTS".
Proof.
  destruct (os_name_is_never_empty (js "linux") (js "5.15.0")
              (Some osReleaseSample)) as (_ & Hpretty & _).
  apply (Hpretty osReleaseSample [js "NAME=Ubuntu"]
           (js "Ubuntu 22.04.3 LTS") [js "ID=ubuntu"; []]).
  - reflexivity.
  - vm_compute. reflexivity.
  - repeat constructor.
  - vm_compute. discriminate.
Defined.

(** ** Token validation and settings dialogs *)

(** X25: with validation, a token is saved exactly when the remote accepts
    it.  If the profile request is answered with a success status and a
    body that parses, the token is stored and the user is shown the profile
    (missing name or role as "Unknown"); if it is rejected, answered with
    another status or with a body that does not parse, the store is left as
    it is and the user is shown the reason.  Either way the command defers
    and edits once. *)
Theorem validated_token_saved_iff_accepted (w : World) (U T : jsstring)
    (st : Store) :
  (forall status text data,
     apiUser w T = Response true status text (Some data) ->
     Dashboard.settoken w U T st
     = (setUserToken U T st,
        [Dashboard.Deferred;
         Dashboard.Edited
           (Dashboard.TokenValidSaved
              (orString (me_username data) (js "Unknown"))
              (orString (me_role data) (js "Unknown")) (me_quota data))]))
  /\ (forall status text json,
        apiUser w T = Response false status text json ->
        Dashboard.settoken w U T st
        = (st, [Dashboard.Deferred;
                Dashboard.Edited
                  (Dashboard.InvalidToken (Dashboard.HttpStatus status))]))
  /\ (apiUser w T = Rejected
      \/ (exists status text, apiUser w T = Response true status text None) ->
      Dashboard.settoken w U T st
      = (st, [Dashboard.Deferred;
              Dashboard.Edited
                (Dashboard.InvalidToken Dashboard.NetworkOrUrl)])).
Proof.
  unfold Dashboard.settoken, Dashboard.validateZiplineToken.
  split; [|split].
  - intros status text data ->. reflexivity.
  - intros status text json ->. reflexivity.
  - intros [-> | (status & text & ->)]; reflexivity.
Qed.

Lemma validated_token_saved_iff_accepted_witness :
  Dashboard.settoken brokenDownload alice (js "tok") initialStore
  = (initialStore,
     [Dashboard.Deferred;
      Dashboard.Edited (Dashboard.InvalidToken Dashboard.NetworkOrUrl)]).
Proof.
  destruct (validated_token_saved_iff_accepted brokenDownload alice (js "tok")
              initialStore) as (_ & _ & Hrej).
  apply Hrej. left. reflexivity.
Defined.

Lemma setUserSettings_normalForm (U : jsstring) (input : Settings)
    (st : Store) :
  normalForm (getUserSettings U (setUserSettings U input st)).
Proof.
  rewrite getUserSettings_set. split; apply trimOrNull_idempotent.
Qed.

(** X26: the settings dialog edits one field and keeps the other.  For a
    user whose stored settings are in normal form, as [setUserSettings]
    leaves them, submitting the expiry dialog stores the trimmed text as
    expiry (absent if it is all whitespace) and keeps the compression;
    submitting the compression dialog does the converse; a dialog with any
    other identifier changes nothing and sends nothing. *)
Theorem dialog_edits_one_setting (U value customId : jsstring) (st : Store) :
  normalForm (getUserSettings U st) ->
  getUserSettings U (fst (Dashboard.modalSubmit (js "edit_expiry") value U st))
  = {| expiry := trimOrNull (Some value);
       compression := compression (getUserSettings U st) |}
  /\ getUserSettings U
       (fst (Dashboard.modalSubmit (js "edit_compression") value U st))
     = {| expiry := expiry (getUserSettings U st);
          compression := trimOrNull (Some value) |}
  /\ (customId <> js "edit_expiry" -> customId <> js "edit_compression" ->
      Dashboard.modalSubmit customId value U st = (st, [])).
Proof.
  intros [He Hc]. unfold Dashboard.modalSubmit.
  split; [|split].
  - rewrite bool_decide_eq_true_2 by reflexivity. cbn [orb fst].
    rewrite getUserSettings_set. cbn [expiry compression].
    rewrite Hc. reflexivity.
  - rewrite (bool_decide_eq_false_2 (js "edit_compression" = js "edit_expiry"))
      by (vm_compute; discriminate).
    rewrite bool_decide_eq_true_2 by reflexivity. cbn [orb fst].
    rewrite getUserSettings_set. cbn [expiry compression].
    rewrite He. reflexivity.
  - intros H1 H2. rewrite !bool_decide_eq_false_2 by assumption. reflexivity.
Qed.

Lemma dialog_edits_one_setting_witness :
  getUserSettings alice
    (fst (Dashboard.modalSubmit (js "edit_expiry") (js " 1d ") alice
            (setUserSettings alice
               {| expiry := Some (js "7d"); compression := Some (js "9") |}
               initialStore)))
  = {| expiry := Some (js "1d"); compression := Some (js "9") |}.
Proof.
  destruct (dialog_edits_one_setting alice (js " 1d ") (js "other")
              (setUserSettings alice
                 {| expiry := Some (js "7d"); compression := Some (js "9") |}
                 initialStore)
              (setUserSettings_normalForm alice _ initialStore))
    as (Hexp & _).
  rewrite Hexp. vm_compute. reflexivity.
Defined.

(** ** The upload command *)

(** X27: an upload that the remote answers leaves the whole state of the
    bot as it was.  For a user whose token is set, when the download
    succeeds and the upload request is answered, the stores, the working
    directory and the collectors after the command are those before it;
    the user gets the links of the uploaded files on success, each the
    file's own URL or the base URL with "/u/" and its id, and the generic
    failure notice otherwise, the error going to the log. *)
Theorem upload_command_outcome (w : World) (fuel : nat)
    (U token url name : jsstring) (app : App) (bytes : list N) (ok : bool)
    (status : Z) (text : jsstring) (json : option UploadJson) :
  getUserToken U (app_store app) = Some token ->
  app_fs app !! tmpPath (clock w) name = None ->
  attachment w url = DownloadResponse true (StreamEnds bytes) ->
  apiUpload w
    (uploadHeaders token (formHeaders w) (getUserSettings U (app_store app)))
    bytes
  = Response ok status text json ->
  interactionCreate w fuel U (UploadCmd url name) app
  = Some (app,
          match (if ok then resJson json
                 else Throw (UploadApiError status)) with
          | Ok resp =>
              [DeferReply;
               EditReply (UploadSuccessful
                            (fileUrl w <$> default [] (uj_files resp)))]
          | Throw e =>
              [DeferReply; LogError e (js "InteractionHandler");
               EditReply ErrorOccurred]
          end).
Proof.
  intros Htok Hfresh Hdl Hup.
  destruct (upload_answered_removes_staging_file w (app_store app) (clock w)
              (formHeaders w) token url name U (app_fs app) bytes ok status
              text json Hfresh Hdl Hup) as [Hfs Hres].
  unfold interactionCreate, handleSubcommand. rewrite Htok.
  rewrite (surjective_pairing (ziplineUploadFromUrl _ _ _ _ _ _ _ _ _)).
  rewrite Hfs, Hres.
  assert (Happ : withFs app (app_fs app) = app) by (destruct app; reflexivity).
  destruct (if ok then resJson json else Throw (UploadApiError status));
    simpl; rewrite Happ; reflexivity.
Qed.

Lemma upload_command_outcome_witness :
  let w := uploadWorld
             (Response true 200 []
                (Some {| uj_files :=
                           Some [mkUploadedFile None (js "abc")] |})) in
  let app := mkApp (setUserToken alice (js "tok") initialStore) someFiles [] in
  interactionCreate w 0 alice (UploadCmd catUrl catPng) app
  = Some (app,
          [DeferReply;
           EditReply (UploadSuccessful [js "https://zip.example/u/abc"])]).
Proof.
  intros w app.
  apply (upload_command_outcome w 0 alice (js "tok") catUrl catPng app
           [137; 80; 78]%N true 200 []
           (Some {| uj_files := Some [mkUploadedFile None (js "abc")] |}));
    vm_compute; reflexivity.
Defined.
